(** * go-router: status interception, route tree and OpenAPI synthesis

    A shallow embedding of the router package (router.go in its
    [handleStatus] revision, the intercept writers and openapi.go) together
    with the properties its specification states about them.

    Conventions.  Go strings are [string] (8-bit characters), [[]byte] is
    [list Byte.byte], [int] is [Z].  A Go [map] is a [gmap]; where the source
    tells a nil map from an allocated one the model uses [option (gmap _ _)].
    A panic is the [Panic] result.  [http.ResponseWriter] is an interface and
    is rendered as the type class [ResponseWriter]; the two decorators of the
    package are instances of it over their embedded writer.  The host
    multiplexer and [http.Redirect] are not code of this package; they are
    taken as parameters (record [NetHTTP]). *)

From Stdlib Require Import ZArith String Ascii List Bool Lia Permutation.
From stdpp Require Import base option list strings pretty gmap fin_maps.

Open Scope Z_scope.
Open Scope string_scope.

(** ** Results of code that may panic *)

Inductive result (A : Type) : Type :=
| Ok (a : A)
| Panic (msg : string).
Arguments Ok {A} a.
Arguments Panic {A} msg.

#[export] Instance result_ret : MRet result := fun A a => Ok a.

#[export] Instance result_bind : MBind result := fun A B f x =>
  match x with
  | Ok a => f a
  | Panic msg => Panic msg
  end.

Definition is_Ok {A : Type} (x : result A) : bool :=
  match x with Ok _ => true | Panic _ => false end.

(** ** net/http: headers, requests and the response writer interface *)

(** [http.Header] is [map[string][]string].  Keys are taken in canonical
    form; the package only ever uses the three accessors below. *)
Abbreviation header := (gmap string (list string)).

Definition Header_Get (h : header) (key : string) : string :=
  match h !! key with
  | Some (v :: _) => v
  | _ => ""
  end.

Definition Header_Set (h : header) (key value : string) : header :=
  <[key := [value]]> h.

Definition Header_Del (h : header) (key : string) : header :=
  delete key h.

Record Request : Type := {
  Method : string;
  URL_Path : string
}.

(** The interface [http.ResponseWriter].  [Header] returns the live header
    map; [SetHeader] stores a mutated map back.  [Write] returns Go's
    [(int, error)], the error being [None] for nil. *)
Class ResponseWriter (W : Type) : Type := {
  Header : W -> header;
  SetHeader : header -> W -> W;
  WriteHeader : Z -> W -> W;
  Write : list Byte.byte -> W -> W * (Z * option string)
}.

(** [http.Handler]: code that drives whatever writer it is handed. *)
Definition Handler : Type :=
  forall W : Type, ResponseWriter W -> Request -> W -> W.

Abbreviation Middleware := (Handler -> Handler).

Definition StatusNoContent : Z := 204.
Definition StatusMovedPermanently : Z := 301.
Definition StatusTemporaryRedirect : Z := 307.
Definition StatusNotFound : Z := 404.
Definition StatusMethodNotAllowed : Z := 405.
Definition StatusInternalServerError : Z := 500.

Definition MethodGet : string := "GET".
Definition MethodHead : string := "HEAD".
Definition MethodPost : string := "POST".
Definition MethodPut : string := "PUT".
Definition MethodPatch : string := "PATCH".
Definition MethodDelete : string := "DELETE".
Definition MethodOptions : string := "OPTIONS".

(** ** The intercept writers *)

Definition HeaderFlagDoNotIntercept : string := "do_not_intercept".

Record excludeHeaderWriter (W : Type) : Type := {
  ew_ResponseWriter : W;
  excludedHeaders : list string
}.
Arguments ew_ResponseWriter {W} _.
Arguments excludedHeaders {W} _.

Record routingStatusInterceptWriter (W : Type) : Type := {
  iw_ResponseWriter : W;
  interceptMap : gmap Z (W -> bool);
  statusCode : Z;
  intercepted : bool
}.
Arguments iw_ResponseWriter {W} _.
Arguments interceptMap {W} _.
Arguments statusCode {W} _.
Arguments intercepted {W} _.

Section Writers.
Context {W : Type} `{RW : ResponseWriter W}.

(** [for _, header := range w.excludedHeaders { w.Header().Del(header) }] *)
Definition delExcluded (headers : list string) (inner : W) : W :=
  fold_left (fun i k => SetHeader (Header_Del (Header i) k) i) headers inner.

Definition excludeHeaderWriter_WriteHeader
    (code : Z) (w : excludeHeaderWriter W) : excludeHeaderWriter W :=
  {| ew_ResponseWriter :=
       WriteHeader code (delExcluded (excludedHeaders w) (ew_ResponseWriter w));
     excludedHeaders := excludedHeaders w |}.

(** The loop of [WriteHeader] over [w.interceptMap]: does some entry carry
    the status code and a predicate that holds now?  (The guard
    [if w.intercepted] inside the loop cannot fire: the flag was tested
    just before and is only set together with a return.) *)
Fixpoint rangeInterceptMap
    (entries : list (Z * (W -> bool))) (code : Z) (inner : W) : bool :=
  match entries with
  | [] => false
  | (k, fn) :: rest =>
      if (k =? code)%Z && fn inner then true
      else rangeInterceptMap rest code inner
  end.

Definition routingStatusInterceptWriter_WriteHeader
    (code : Z) (w : routingStatusInterceptWriter W)
    : routingStatusInterceptWriter W :=
  if intercepted w then w
  else if rangeInterceptMap (map_to_list (interceptMap w)) code
            (iw_ResponseWriter w)
  then {| iw_ResponseWriter := iw_ResponseWriter w;
          interceptMap := interceptMap w;
          statusCode := code;
          intercepted := true |}
  else {| iw_ResponseWriter := WriteHeader code (iw_ResponseWriter w);
          interceptMap := interceptMap w;
          statusCode := code;
          intercepted := false |}.

Definition routingStatusInterceptWriter_Write
    (data : list Byte.byte) (w : routingStatusInterceptWriter W)
    : routingStatusInterceptWriter W * (Z * option string) :=
  if intercepted w then (w, (0, None))
  else
    let '(inner, r) := Write data (iw_ResponseWriter w) in
    ({| iw_ResponseWriter := inner;
        interceptMap := interceptMap w;
        statusCode := statusCode w;
        intercepted := intercepted w |}, r).

(** Whether a predicate registered for [code] holds in the current state. *)
Definition matches (w : routingStatusInterceptWriter W) (code : Z) : bool :=
  match interceptMap w !! code with
  | Some fn => fn (iw_ResponseWriter w)
  | None => false
  end.
End Writers.

(** Both decorators embed their inner writer, so [Header] and, for the
    eraser, [Write] are promoted from it. *)
#[export] Instance excludeHeaderWriter_RW {W : Type} `{RW : ResponseWriter W}
    : ResponseWriter (excludeHeaderWriter W) := {
  Header w := Header (ew_ResponseWriter w);
  SetHeader h w :=
    {| ew_ResponseWriter := SetHeader h (ew_ResponseWriter w);
       excludedHeaders := excludedHeaders w |};
  WriteHeader := excludeHeaderWriter_WriteHeader;
  Write data w :=
    let '(inner, r) := Write data (ew_ResponseWriter w) in
    ({| ew_ResponseWriter := inner; excludedHeaders := excludedHeaders w |}, r)
}.

#[export] Instance routingStatusInterceptWriter_RW
    {W : Type} `{RW : ResponseWriter W}
    : ResponseWriter (routingStatusInterceptWriter W) := {
  Header w := Header (iw_ResponseWriter w);
  SetHeader h w :=
    {| iw_ResponseWriter := SetHeader h (iw_ResponseWriter w);
       interceptMap := interceptMap w;
       statusCode := statusCode w;
       intercepted := intercepted w |};
  WriteHeader := routingStatusInterceptWriter_WriteHeader;
  Write := routingStatusInterceptWriter_Write
}.

(** The interceptor of the earlier revision of the package (three fixed
    predicates in place of the map), which the revision with [NotFound],
    [MethodNotAllowed] and [InternalServerError] uses. *)
Module Legacy.

Record routingStatusInterceptWriter (W : Type) : Type := {
  ResponseWriter_ : W;
  intercept404 : W -> bool;
  intercept405 : W -> bool;
  intercept500 : W -> bool;
  statusCode : Z;
  intercepted : bool
}.
Arguments ResponseWriter_ {W} _.
Arguments intercept404 {W} _.
Arguments intercept405 {W} _.
Arguments intercept500 {W} _.
Arguments statusCode {W} _.
Arguments intercepted {W} _.

Definition WriteHeader' {W : Type} `{RW : ResponseWriter W}
    (code : Z) (w : routingStatusInterceptWriter W)
    : routingStatusInterceptWriter W :=
  if intercepted w then w
  else if (intercept404 w (ResponseWriter_ w) && (code =? StatusNotFound)%Z)
          || (intercept405 w (ResponseWriter_ w)
              && (code =? StatusMethodNotAllowed)%Z)
          || (intercept500 w (ResponseWriter_ w)
              && (code =? StatusInternalServerError)%Z)
  then {| ResponseWriter_ := ResponseWriter_ w;
          intercept404 := intercept404 w; intercept405 := intercept405 w;
          intercept500 := intercept500 w;
          statusCode := code; intercepted := true |}
  else {| ResponseWriter_ := WriteHeader code (ResponseWriter_ w);
          intercept404 := intercept404 w; intercept405 := intercept405 w;
          intercept500 := intercept500 w;
          statusCode := code; intercepted := false |}.

Definition Write' {W : Type} `{RW : ResponseWriter W}
    (data : list Byte.byte) (w : routingStatusInterceptWriter W)
    : routingStatusInterceptWriter W * (Z * option string) :=
  if intercepted w then (w, (0, None))
  else
    let '(inner, r) := Write data (ResponseWriter_ w) in
    ({| ResponseWriter_ := inner;
        intercept404 := intercept404 w; intercept405 := intercept405 w;
        intercept500 := intercept500 w;
        statusCode := statusCode w; intercepted := intercepted w |}, r).

End Legacy.

(** The same interceptor in the representation of the current revision. *)
Definition ofLegacy {W : Type} (w : Legacy.routingStatusInterceptWriter W)
    : routingStatusInterceptWriter W :=
  {| iw_ResponseWriter := Legacy.ResponseWriter_ w;
     interceptMap :=
       {[ StatusNotFound := Legacy.intercept404 w;
          StatusMethodNotAllowed := Legacy.intercept405 w;
          StatusInternalServerError := Legacy.intercept500 w ]};
     statusCode := Legacy.statusCode w;
     intercepted := Legacy.intercepted w |}.

(** A writer that records what reaches it: the header map and, in order,
    the [WriteHeader] and [Write] calls.  It stands for the real connection
    in the examples. *)
Inductive call : Type :=
| CallWriteHeader (code : Z)
| CallWrite (data : list Byte.byte).

Record Recorder : Type := {
  rec_header : header;
  rec_calls : list call
}.

#[export] Instance Recorder_RW : ResponseWriter Recorder := {
  Header w := rec_header w;
  SetHeader h w := {| rec_header := h; rec_calls := rec_calls w |};
  WriteHeader code w :=
    {| rec_header := rec_header w;
       rec_calls := rec_calls w ++ [CallWriteHeader code] |};
  Write data w :=
    ({| rec_header := rec_header w;
        rec_calls := rec_calls w ++ [CallWrite data] |},
     (Z.of_nat (length data), None))
}.

Definition newRecorder : Recorder := {| rec_header := ∅; rec_calls := [] |}.

(** ** The functions of Go's [strings] package that the router calls *)

Fixpoint strings_Join (elems : list string) (sep : string) : string :=
  match elems with
  | [] => ""
  | x :: rest =>
      match rest with
      | [] => x
      | _ :: _ => x +:+ sep +:+ strings_Join rest sep
      end
  end.

Fixpoint strings_HasPrefix (s prefix : string) : bool :=
  match prefix, s with
  | EmptyString, _ => true
  | String _ _, EmptyString => false
  | String p prefix', String c s' =>
      if Ascii.eqb p c then strings_HasPrefix s' prefix' else false
  end.

(** Left-to-right scan shared by [ReplaceAll] and [Split]; [skip] counts the
    characters of a match that are still to be consumed.  [old] and [sep] are
    never empty in this package. *)
Fixpoint replaceFrom (old new : string) (skip : nat) (s : string) : string :=
  match s with
  | EmptyString => EmptyString
  | String c rest =>
      match skip with
      | S k => replaceFrom old new k rest
      | O =>
          if strings_HasPrefix s old
          then new +:+ replaceFrom old new (String.length old - 1) rest
          else String c (replaceFrom old new O rest)
      end
  end.

Definition strings_ReplaceAll (s old new : string) : string :=
  replaceFrom old new 0 s.

Fixpoint splitFrom (sep : string) (skip : nat) (cur s : string) : list string :=
  match s with
  | EmptyString => [cur]
  | String c rest =>
      match skip with
      | S k => splitFrom sep k cur rest
      | O =>
          if strings_HasPrefix s sep
          then cur :: splitFrom sep (String.length sep - 1) "" rest
          else splitFrom sep O (cur +:+ String c "") rest
      end
  end.

Definition strings_Split (s sep : string) : list string :=
  splitFrom sep 0 "" s.

Fixpoint strings_Contains (cutset : string) (c : ascii) : bool :=
  match cutset with
  | EmptyString => false
  | String d rest => if Ascii.eqb d c then true else strings_Contains rest c
  end.

Fixpoint strings_TrimLeft (s cutset : string) : string :=
  match s with
  | EmptyString => EmptyString
  | String c rest =>
      if strings_Contains cutset c then strings_TrimLeft rest cutset else s
  end.

Fixpoint strings_TrimRight (s cutset : string) : string :=
  match s with
  | EmptyString => EmptyString
  | String c rest =>
      match strings_TrimRight rest cutset with
      | EmptyString =>
          if strings_Contains cutset c then EmptyString else String c EmptyString
      | String _ _ as rest' => String c rest'
      end
  end.

Definition isLower (c : ascii) : bool :=
  let n := nat_of_ascii c in (97 <=? n)%nat && (n <=? 122)%nat.
Definition isUpper (c : ascii) : bool :=
  let n := nat_of_ascii c in (65 <=? n)%nat && (n <=? 90)%nat.
Definition isDigit (c : ascii) : bool :=
  let n := nat_of_ascii c in (48 <=? n)%nat && (n <=? 57)%nat.

(** [strings.isSeparator] on bytes: letters, digits and the underscore do not
    separate words, any other ASCII character does; bytes of multi-byte
    characters are left alone. *)
Definition isSeparator (c : ascii) : bool :=
  let n := nat_of_ascii c in
  if isLower c || isUpper c || isDigit c || (n =? 95)%nat then false
  else (n <? 128)%nat.

Definition toUpper (c : ascii) : ascii :=
  if isLower c then ascii_of_nat (nat_of_ascii c - 32) else c.

Fixpoint titleFrom (prev : ascii) (s : string) : string :=
  match s with
  | EmptyString => EmptyString
  | String c rest =>
      String (if isSeparator prev then toUpper c else c) (titleFrom c rest)
  end.

Definition strings_Title (s : string) : string := titleFrom " "%char s.

(** [slices.Contains] on strings. *)
Definition slices_Contains (slice : list string) (element : string) : bool :=
  existsb (String.eqb element) slice.

(** ** A model of [reflect] for the sample values of a declaration *)

Module reflect.

Inductive Kind : Type :=
| Invalid | Bool | Int | Int8 | Int16 | Int32 | Int64
| Uint | Uint8 | Uint16 | Uint32 | Uint64 | Uintptr
| Float32 | Float64 | Complex64 | Complex128
| Array | Chan | Func | Interface | Map | Pointer | Slice
| String | Struct | UnsafePointer.

(** Kinds of types that carry neither fields nor an element type. *)
Inductive plainKind : Type :=
| PBool | PInt | PInt8 | PInt16 | PInt32 | PInt64
| PUint | PUint8 | PUint16 | PUint32 | PUint64 | PUintptr
| PFloat32 | PFloat64 | PComplex64 | PComplex128
| PFunc | PInterface | PString | PUnsafePointer.

(** Kinds of types with an element type. *)
Inductive elemKind : Type := EArray | EChan | EMap | EPointer | ESlice.

(** [reflect.Type].  [name] is what [Name()] returns: the declared name of
    a defined type, the predeclared name of a basic type, and the empty
    string for a type literal such as [[]User] or [*User]. *)
Inductive Type_ : Type :=
| Plain (name : string) (k : plainKind)
| StructOf (name : string) (fields : list StructField)
| ElemOf (name : string) (k : elemKind) (elem : Type_)
with StructField : Type :=
| mkStructField (Name : string) (Tag_json : string) (Type' : Type_).

Definition Field_Name (f : StructField) : string :=
  match f with mkStructField n _ _ => n end.
(** The result of [f.Tag.Get("json")]. *)
Definition Field_Tag_json (f : StructField) : string :=
  match f with mkStructField _ t _ => t end.
Definition Field_Type (f : StructField) : Type_ :=
  match f with mkStructField _ _ t => t end.

Definition Type_Name (t : Type_) : string :=
  match t with
  | Plain n _ | StructOf n _ | ElemOf n _ _ => n
  end.

Definition Type_Kind (t : Type_) : Kind :=
  match t with
  | Plain _ k =>
      match k with
      | PBool => Bool | PInt => Int | PInt8 => Int8 | PInt16 => Int16
      | PInt32 => Int32 | PInt64 => Int64
      | PUint => Uint | PUint8 => Uint8 | PUint16 => Uint16
      | PUint32 => Uint32 | PUint64 => Uint64 | PUintptr => Uintptr
      | PFloat32 => Float32 | PFloat64 => Float64
      | PComplex64 => Complex64 | PComplex128 => Complex128
      | PFunc => Func | PInterface => Interface | PString => String
      | PUnsafePointer => UnsafePointer
      end
  | StructOf _ _ => Struct
  | ElemOf _ k _ =>
      match k with
      | EArray => Array | EChan => Chan | EMap => Map
      | EPointer => Pointer | ESlice => Slice
      end
  end.

Definition Kind_eqb (a b : Kind) : bool :=
  match a, b with
  | Invalid, Invalid | Bool, Bool | Int, Int | Int8, Int8 | Int16, Int16
  | Int32, Int32 | Int64, Int64 | Uint, Uint | Uint8, Uint8
  | Uint16, Uint16 | Uint32, Uint32 | Uint64, Uint64 | Uintptr, Uintptr
  | Float32, Float32 | Float64, Float64 | Complex64, Complex64
  | Complex128, Complex128 | Array, Array | Chan, Chan | Func, Func
  | Interface, Interface | Map, Map | Pointer, Pointer | Slice, Slice
  | String, String | Struct, Struct | UnsafePointer, UnsafePointer => true
  | _, _ => false
  end.

(** [Type.Elem()]: panics unless the type has an element type. *)
Definition Type_Elem (t : Type_) : result Type_ :=
  match t with
  | ElemOf _ _ e => Ok e
  | _ => Panic "reflect: Elem of invalid type"
  end.

(** A Go value of interface type [any], as far as reflection on its type can
    tell: the nil interface, or a value of dynamic type [t] that is itself
    nil ([isNil], for pointers, slices, maps, ...) or not. *)
Inductive any : Type :=
| nil
| val (t : Type_) (isNil : bool).

(** [reflect.Value]: the zero Value, or a value with its type. *)
Inductive Value : Type :=
| zeroValue
| mkValue (t : Type_) (isNil : bool).

Definition ValueOf (i : any) : Value :=
  match i with
  | nil => zeroValue
  | val t n => mkValue t n
  end.

Definition Value_Kind (v : Value) : Kind :=
  match v with
  | zeroValue => Invalid
  | mkValue t _ => Type_Kind t
  end.

Definition Value_Type (v : Value) : result Type_ :=
  match v with
  | zeroValue => Panic "reflect: call of reflect.Value.Type on zero Value"
  | mkValue t _ => Ok t
  end.

(** [Value.Elem()] on a pointer: the zero Value for a nil pointer, the
    pointee otherwise.  The package calls it on pointer kinds only. *)
Definition Value_Elem (v : Value) : result Value :=
  match v with
  | mkValue (ElemOf _ EPointer e) n =>
      Ok (if n then zeroValue else mkValue e false)
  | _ => Panic "reflect: call of reflect.Value.Elem on non-pointer Value"
  end.

(** [reflect.New(t).Elem()]: the zero value of type [t] (nil where the type
    has a nil). *)
Definition New_Elem (t : Type_) : Value := mkValue t true.

Definition Value_NumField (v : Value) : result nat :=
  match v with
  | mkValue (StructOf _ fields) _ => Ok (length fields)
  | _ => Panic "reflect: call of reflect.Value.NumField on non-struct Value"
  end.

(** [Type.Field(i)]: panics off a struct type or out of range. *)
Definition Type_Field (t : Type_) (i : nat) : result StructField :=
  match t with
  | StructOf _ fields =>
      match fields !! i with
      | Some f => Ok f
      | None => Panic "reflect: Field index out of bounds"
      end
  | _ => Panic "reflect: Field of non-struct type"
  end.

(** [Value.Field(i).Type()]. *)
Definition Value_Field_Type (v : Value) (i : nat) : result Type_ :=
  match v with
  | mkValue t _ => f ← Type_Field t i; Ok (Field_Type f)
  | zeroValue => Panic "reflect: call of reflect.Value.Field on zero Value"
  end.

End reflect.

(** [for i := 0; i < n; i++ { body }] with a body that may panic. *)
Fixpoint forRange {S : Type} (count i : nat) (body : nat -> S -> result S)
    (s : S) : result S :=
  match count with
  | O => Ok s
  | Datatypes.S count' => s' ← body i s; forRange count' (Datatypes.S i) body s'
  end.

(** [for k, v := range m { body }] over the entries in the order the
    iteration visits them. *)
Fixpoint forEntries {K V S : Type} (entries : list (K * V))
    (body : K -> V -> S -> result S) (s : S) : result S :=
  match entries with
  | [] => Ok s
  | (k, v) :: rest => s' ← body k v s; forEntries rest body s'
  end.

(** ** openapi.go *)

#[warnings="-register-all"]
Inductive Schema : Type := mkSchema {
  Schema_Ref : string;
  Schema_Type : string;
  Schema_Format : string;
  Schema_Properties : gmap string Schema;
  Schema_Items : option Schema;
  Schema_Required : list string
}.

(** [Schema{Ref: ref}] and [Schema{Type: t}]: every other field zero. *)
Definition Schema_ofRef (ref : string) : Schema :=
  mkSchema ref "" "" ∅ None [].
Definition Schema_ofType (t : string) : Schema :=
  mkSchema "" t "" ∅ None [].

Record MediaType : Type := {
  MediaType_Schema : option Schema
}.

Record Param : Type := {
  Param_Name : string;
  Param_In : string;
  Param_Description : string;
  Param_Required : bool;
  Param_Schema : option Schema
}.

Record RequestBody : Type := {
  RequestBody_Description : string;
  RequestBody_Content : gmap string MediaType;
  RequestBody_Required : bool
}.

Record Response : Type := {
  Response_Description : string;
  Response_Content : gmap string MediaType
}.

Record Operation : Type := {
  Operation_Tags : list string;
  Operation_Summary : string;
  Operation_Description : string;
  OperationID_ : string;
  Operation_Parameters : list Param;
  Operation_RequestBody : option RequestBody;
  Operation_Responses : gmap string Response;
  Operation_Security : list (gmap string (list string))
}.

Record PathItem : Type := {
  Get : option Operation;
  Post : option Operation;
  Put : option Operation;
  Delete : option Operation;
  Patch : option Operation
}.

Definition emptyPathItem : PathItem :=
  {| Get := None; Post := None; Put := None; Delete := None; Patch := None |}.

(** [append] onto a slice that may be nil. *)
Definition appendIf (present : bool) (methods : list string) (m : string)
    : list string :=
  if present then methods ++ [m] else methods.

Definition Methods (p : PathItem) : list string :=
  let methods := [] in
  let methods := appendIf (bool_decide (Get p ≠ None)) methods "GET" in
  let methods := appendIf (bool_decide (Post p ≠ None)) methods "POST" in
  let methods := appendIf (bool_decide (Put p ≠ None)) methods "PUT" in
  let methods := appendIf (bool_decide (Delete p ≠ None)) methods "DELETE" in
  let methods := appendIf (bool_decide (Patch p ≠ None)) methods "PATCH" in
  methods.

Definition SetMethod (p : PathItem) (method : string) (operation : Operation)
    : PathItem :=
  if String.eqb method "GET" then
    {| Get := Some operation; Post := Post p; Put := Put p;
       Delete := Delete p; Patch := Patch p |}
  else if String.eqb method "POST" then
    {| Get := Get p; Post := Some operation; Put := Put p;
       Delete := Delete p; Patch := Patch p |}
  else if String.eqb method "PUT" then
    {| Get := Get p; Post := Post p; Put := Some operation;
       Delete := Delete p; Patch := Patch p |}
  else if String.eqb method "DELETE" then
    {| Get := Get p; Post := Post p; Put := Put p;
       Delete := Some operation; Patch := Patch p |}
  else if String.eqb method "PATCH" then
    {| Get := Get p; Post := Post p; Put := Put p;
       Delete := Delete p; Patch := Some operation |}
  else p.

Record Info : Type := {
  Info_Title : string;
  Info_Description : string;
  Info_Version : string
}.

Record Server : Type := {
  Server_URL : string;
  Server_Description : string
}.

Record Components : Type := {
  Schemas : gmap string Schema
}.

Record OpenAPI : Type := {
  Openapi : string;
  OpenAPI_Info : Info;
  Servers : list Server;
  Paths : gmap string PathItem;
  OpenAPI_Components : Components
}.

(** ** router.go: declarations, nodes and the state owned by the root *)

Definition DefaultRedirectTrailingSlash : bool := false.
Definition DefaultRedirectStatusCode : Z := StatusTemporaryRedirect.
Definition DefaultUseOpenapiDocs : bool := false.
Definition OpenApiVersion : string := "3.0.1".

Record DocOut : Type := {
  ApplicationType : string;
  DocOut_Description : string;
  DocOut_Object : reflect.any
}.

Record DocIn : Type := {
  DocIn_Object : reflect.any;
  DocIn_Required : bool
}.

Record Docs : Type := {
  Docs_Tags : list string;
  Docs_Summary : string;
  Docs_Description : string;
  Docs_Parameters : list Param;
  Docs_RequestBody : option RequestBody;
  Docs_Responses : gmap string Response;
  Docs_Security : list (gmap string (list string));
  Docs_In : option (gmap string DocIn);
  Docs_Out : option (gmap string DocOut)
}.

(** One node of the route tree: the fields of [Router] that belong to the
    node itself.  [Use] and the two switches replace the node's own copy. *)
Record Router : Type := {
  basePath : string;
  redirectTrailingSlash : bool;
  openapiDocs : bool;
  middlewares : list Middleware
}.

(** What every node reaches through [rootParent()] or shares by reference:
    the multiplexer (the registrations handed to it, oldest first), the
    [handleStatus] map (one map, copied by reference into every group), the
    pattern map, the [sync.Once] of the root and the document. *)
Record Root : Type := {
  mux : list (string * Handler);
  handleStatus : gmap Z (option Handler);
  patternMap : gmap string string;
  once : bool;
  openapi : OpenAPI
}.

Definition New (ht : list (string * Handler)) (title version : string)
    : Router * Root :=
  ({| basePath := "";
      redirectTrailingSlash := DefaultRedirectTrailingSlash;
      openapiDocs := DefaultUseOpenapiDocs;
      middlewares := [] |},
   {| mux := ht;
      handleStatus := ∅;
      patternMap := ∅;
      once := false;
      openapi :=
        {| Openapi := OpenApiVersion;
           OpenAPI_Info :=
             {| Info_Title := title; Info_Description := "";
                Info_Version := version |};
           Servers := [];
           Paths := ∅;
           OpenAPI_Components := {| Schemas := ∅ |} |} |}).

Definition set_mux (s : Root) (m : list (string * Handler)) : Root :=
  {| mux := m; handleStatus := handleStatus s; patternMap := patternMap s;
     once := once s; openapi := openapi s |}.

Definition set_once (s : Root) (b : bool) : Root :=
  {| mux := mux s; handleStatus := handleStatus s; patternMap := patternMap s;
     once := b; openapi := openapi s |}.

Definition set_docs (s : Root) (pm : gmap string string)
    (paths : gmap string PathItem) (schemas : gmap string Schema) : Root :=
  {| mux := mux s; handleStatus := handleStatus s; patternMap := pm;
     once := once s;
     openapi :=
       {| Openapi := Openapi (openapi s);
          OpenAPI_Info := OpenAPI_Info (openapi s);
          Servers := Servers (openapi s);
          Paths := paths;
          OpenAPI_Components := {| Schemas := schemas |} |} |}.

(** [mux.Handle(pattern, handler)]; conflicts between patterns are the
    multiplexer's business. *)
Definition mux_Handle (s : Root) (pattern : string) (handler : Handler) : Root :=
  set_mux s (mux s ++ [(pattern, handler)]).

Definition HandleStatus (httpStatus : Z) (handler : option Handler) (s : Root)
    : Root :=
  {| mux := mux s;
     handleStatus := <[httpStatus := handler]> (handleStatus s);
     patternMap := patternMap s; once := once s; openapi := openapi s |}.

Definition RedirectTrailingSlash (r : Router) (redirect : bool) : Router :=
  {| basePath := basePath r; redirectTrailingSlash := redirect;
     openapiDocs := openapiDocs r; middlewares := middlewares r |}.

Definition UseOpenapiDocs (r : Router) (use : bool) : Router :=
  {| basePath := basePath r; redirectTrailingSlash := redirectTrailingSlash r;
     openapiDocs := use; middlewares := middlewares r |}.

Definition Use (r : Router) (middleware : Middleware) : Router :=
  {| basePath := basePath r; redirectTrailingSlash := redirectTrailingSlash r;
     openapiDocs := openapiDocs r;
     middlewares := middlewares r ++ [middleware] |}.

(** The node handed to the callback of [Group]. *)
Definition subRouter (r : Router) (basePath' : string) : Router :=
  {| basePath := basePath r +:+ basePath';
     redirectTrailingSlash := redirectTrailingSlash r;
     openapiDocs := openapiDocs r;
     middlewares := [] ++ middlewares r |}.

(** [fn] receives the child node and acts on the shared state. *)
Definition Group {A : Type} (r : Router) (basePath' : string)
    (fn : Router -> Root -> A) (s : Root) : A :=
  fn (subRouter r basePath') s.

(** [for i := len(ms) - 1; i >= 0; i-- { finalHandler = ms[i](finalHandler) }],
    with [n] the number of indices still to visit. *)
Fixpoint wrapFrom (ms : list Middleware) (n : nat) (finalHandler : Handler)
    : Handler :=
  match n with
  | O => finalHandler
  | S i =>
      match ms !! i with
      | Some m => wrapFrom ms i (m finalHandler)
      | None => finalHandler
      end
  end.

Definition registerRoute (r : Router) (method pattern : string)
    (handler : Handler) (s : Root) : Root :=
  let fullPattern' := method +:+ " " +:+ pattern in
  let finalHandler := wrapFrom (middlewares r) (length (middlewares r)) handler in
  mux_Handle s fullPattern' finalHandler.

Definition OperationID (s : string) : string :=
  let s := if String.eqb s "" || String.eqb s "/" then "root" else s in
  let parts := strings_Split s "/" in
  let parts :=
    map (fun part =>
           if String.eqb part "" then part
           else strings_Title
                  (strings_TrimRight (strings_TrimLeft part "{") "}"))
        parts in
  strings_Join parts "".

Definition addIfMissing (slice : list string) (element : string)
    (prepend : bool) : list string :=
  if slices_Contains slice element then slice
  else if prepend then [element] ++ slice
  else slice ++ [element].

(** ** Schema derivation from sample values *)

Definition schemaRef (name : string) : string :=
  "#/components/schemas/" +:+ name.

(** The [switch fieldKind] of [handleDocOut]. *)
Definition kindTypeName (fieldKind : reflect.Kind) : string :=
  match fieldKind with
  | reflect.String => "string"
  | reflect.Int | reflect.Int8 | reflect.Int16 | reflect.Int32
  | reflect.Int64 => "integer"
  | reflect.Float32 | reflect.Float64 => "number"
  | reflect.Bool => "boolean"
  | reflect.Struct => "object"
  | reflect.Slice | reflect.Array => "array"
  | _ => "string"
  end.

(** Body of the field loop of [handleDocOut]. *)
Definition docOutField (obj : reflect.Value) (i : nat)
    (properties : gmap string Schema) : result (gmap string Schema) :=
  t ← reflect.Value_Type obj;
  fieldType ← reflect.Type_Field t i;
  let fieldName := reflect.Field_Name fieldType in
  let jsonTag := reflect.Field_Tag_json fieldType in
  fieldName ←
    (if negb (String.eqb jsonTag "") && negb (String.eqb jsonTag "-")
     then match strings_Split jsonTag "," !! 0%nat with
          | Some first => Ok first
          | None => Panic "index out of range [0]"
          end
     else Ok fieldName);
  let fieldKind := reflect.Type_Kind (reflect.Field_Type fieldType) in
  Ok (<[fieldName := Schema_ofType (kindTypeName fieldKind)]> properties).

(** Body of the field loop of [handleDocIn]. *)
Definition docInField (obj : reflect.Value) (i : nat)
    (properties : gmap string Schema) : result (gmap string Schema) :=
  ft ← reflect.Value_Field_Type obj i;
  t ← reflect.Value_Type obj;
  f ← reflect.Type_Field t i;
  let fieldName := reflect.Field_Name f in
  let fieldType := reflect.Type_Name ft in
  Ok (<[fieldName := Schema_ofType fieldType]> properties).

Definition derefPointer (obj : reflect.Value) : result reflect.Value :=
  if reflect.Kind_eqb (reflect.Value_Kind obj) reflect.Pointer
  then reflect.Value_Elem obj
  else Ok obj.

(** [m[k] = v] on a map that is allocated on first use. *)
Definition assign {V : Type} (m : option (gmap string V)) (k : string) (v : V)
    : option (gmap string V) :=
  Some (<[k := v]> (default ∅ m)).

(** The part of the loop body of [handleDocOut] guarded by
    [docOut.Object != nil]: the schema of the response and the component
    schemas so far. *)
Definition docOutObject (object : reflect.any) (schemas : gmap string Schema)
    (componentSchemas : option (gmap string Schema))
    : result (option Schema * option (gmap string Schema)) :=
  match object with
  | reflect.nil => Ok (None, componentSchemas)
  | _ =>
      obj ← derefPointer (reflect.ValueOf object);
      let pType := "object" in
      t ← reflect.Value_Type obj;
      let name := reflect.Type_Name t in
      let schema := Schema_ofRef (schemaRef name) in
      match schemas !! name with
      | Some _ => Ok (Some schema, componentSchemas)
      | None =>
          '(obj, pType, name, schema) ←
            (if reflect.Kind_eqb (reflect.Value_Kind obj) reflect.Slice
             then
               elementType ← reflect.Type_Elem t;
               let obj := reflect.New_Elem elementType in
               t' ← reflect.Value_Type obj;
               let name := reflect.Type_Name t' in
               Ok (obj, "array", name,
                   mkSchema "" "array" "" ∅
                     (Some (Schema_ofRef (schemaRef name))) [])
             else Ok (obj, pType, name, schema));
          n ← reflect.Value_NumField obj;
          properties ← forRange n 0 (docOutField obj) ∅;
          Ok (Some schema,
              assign componentSchemas name
                (mkSchema "" pType "" properties None []))
      end
  end.

Definition docOutEntry (schemas : gmap string Schema)
    (responseCode : string) (docOut : DocOut)
    (st : option (gmap string Schema) * option (gmap string Response))
    : result (option (gmap string Schema) * option (gmap string Response)) :=
  let '(componentSchemas, routeResponse) := st in
  '(schema, componentSchemas) ←
    docOutObject (DocOut_Object docOut) schemas componentSchemas;
  let mediaType := {| MediaType_Schema := schema |} in
  Ok (componentSchemas,
      assign routeResponse responseCode
        {| Response_Description := DocOut_Description docOut;
           Response_Content := {[ ApplicationType docOut := mediaType ]} |}).

Definition handleDocOut (do : option (gmap string DocOut))
    (schemas : gmap string Schema)
    : result (option (gmap string Schema) * option (gmap string Response)) :=
  match do with
  | None => Ok (None, None)
  | Some do => forEntries (map_to_list do) (docOutEntry schemas) (None, None)
  end.

Definition docInEntry (schemas : gmap string Schema)
    (contentType : string) (docIn : DocIn)
    (st : option (gmap string Schema) * option RequestBody)
    : result (option (gmap string Schema) * option RequestBody) :=
  let '(componentSchemas, requestBody) := st in
  obj ← derefPointer (reflect.ValueOf (DocIn_Object docIn));
  t ← reflect.Value_Type obj;
  let name := reflect.Type_Name t in
  componentSchemas ←
    match schemas !! name with
    | Some _ => Ok componentSchemas
    | None =>
        n ← reflect.Value_NumField obj;
        properties ← forRange n 0 (docInField obj) ∅;
        Ok (assign componentSchemas name
              (mkSchema "" "object" "" properties None []))
    end;
  let requestBody :=
    match requestBody with
    | Some rb => rb
    | None => {| RequestBody_Description := ""; RequestBody_Content := ∅;
                 RequestBody_Required := false |}
    end in
  Ok (componentSchemas,
      Some {| RequestBody_Description := RequestBody_Description requestBody;
              RequestBody_Content :=
                <[contentType :=
                    {| MediaType_Schema := Some (Schema_ofRef (schemaRef name)) |}]>
                  (RequestBody_Content requestBody);
              RequestBody_Required := RequestBody_Required requestBody |}).

Definition handleDocIn (do : option (gmap string DocIn))
    (schemas : gmap string Schema)
    : result (option (gmap string Schema) * option RequestBody) :=
  match do with
  | None => Ok (None, None)
  | Some do => forEntries (map_to_list do) (docInEntry schemas) (None, None)
  end.

(** [for na, cs := range componentSchema { if _, ex := schemas[na]; ex
    { continue }; schemas[na] = cs }], skipped for a nil map. *)
Definition mergeSchemas (componentSchema : option (gmap string Schema))
    (schemas : gmap string Schema) : gmap string Schema :=
  match componentSchema with
  | None => schemas
  | Some cs =>
      fold_left
        (fun schemas '(na, cs) =>
           match schemas !! na with
           | Some _ => schemas
           | None => <[na := cs]> schemas
           end)
        (map_to_list cs) schemas
  end.

Definition registerDocs (r : Router) (method pattern : string)
    (docs : list Docs) (s : Root) : result Root :=
  match docs with
  | [] => Ok s
  | doc :: _ =>
      let stripPattern := strings_ReplaceAll pattern "{$}" "" in
      let patternMap' := <[stripPattern := pattern]> (patternMap s) in
      let pathItem := default emptyPathItem (Paths (openapi s) !! pattern) in
      let schemas := Schemas (OpenAPI_Components (openapi s)) in
      '(componentSchema, routeResponse) ← handleDocOut (Docs_Out doc) schemas;
      let schemas := mergeSchemas componentSchema schemas in
      let responses := default (Docs_Responses doc) routeResponse in
      '(componentSchema, requestBody) ← handleDocIn (Docs_In doc) schemas;
      let schemas := mergeSchemas componentSchema schemas in
      let requestBody :=
        match requestBody with
        | Some rb => Some rb
        | None => Docs_RequestBody doc
        end in
      let op :=
        {| Operation_Tags := Docs_Tags doc;
           Operation_Summary := Docs_Summary doc;
           Operation_Description := Docs_Description doc;
           OperationID_ := method +:+ OperationID stripPattern;
           Operation_Parameters := Docs_Parameters doc;
           Operation_RequestBody := requestBody;
           Operation_Responses := responses;
           Operation_Security := Docs_Security doc |} in
      Ok (set_docs s patternMap'
            (<[stripPattern := SetMethod pathItem method op]> (Paths (openapi s)))
            schemas)
  end.

(** The first two statements of [handle]: the pattern under which the
    route is registered. *)
Definition fullPattern (r : Router) (pattern : string) : string :=
  let pattern :=
    if negb (String.eqb (basePath r) "") then basePath r +:+ pattern
    else pattern in
  match pattern with
  | EmptyString => "/"
  | String c _ => if negb (Ascii.eqb c "/") then "/" +:+ pattern else pattern
  end.

Definition handle (r : Router) (method pattern : string) (handler : Handler)
    (docs : list Docs) (s : Root) : result Root :=
  let pattern := fullPattern r pattern in
  let s := registerRoute r method pattern handler s in
  if openapiDocs r then registerDocs r method pattern docs s else Ok s.

(** The registration methods of [Router]; the names without the underscore
    are the fields of [PathItem]. *)
Definition Get_ (r : Router) := handle r MethodGet.
Definition Head_ (r : Router) := handle r MethodHead.
Definition Post_ (r : Router) := handle r MethodPost.
Definition Put_ (r : Router) := handle r MethodPut.
Definition Patch_ (r : Router) := handle r MethodPatch.
Definition Delete_ (r : Router) := handle r MethodDelete.

Definition getMethodsForPattern (s : Root) (pattern : string) : list string :=
  let methods := [] in
  match Paths (openapi s) !! pattern with
  | Some routeInfo =>
      let methods :=
        if bool_decide (Get routeInfo ≠ None)
        then addIfMissing methods MethodGet false else methods in
      let methods :=
        if bool_decide (Post routeInfo ≠ None)
        then addIfMissing methods MethodPost false else methods in
      let methods :=
        if bool_decide (Put routeInfo ≠ None)
        then addIfMissing methods MethodPut false else methods in
      let methods :=
        if bool_decide (Delete routeInfo ≠ None)
        then addIfMissing methods MethodDelete false else methods in
      let methods :=
        if bool_decide (Patch routeInfo ≠ None)
        then addIfMissing methods MethodPatch false else methods in
      methods
  | None => methods
  end.

(** The closure installed by [registerOptionsHandler]. *)
Definition optionsHandler (methods : list string) : Handler :=
  fun W RW req w =>
    WriteHeader StatusNoContent
      (SetHeader (Header_Set (Header w) "Allow" (strings_Join methods ", ")) w).

Definition registerOptionsHandler (strippedPattern : string) (s : Root) : Root :=
  let pattern := default strippedPattern (patternMap s !! strippedPattern) in
  match Paths (openapi s) !! pattern with
  | None => s
  | Some routeInfo =>
      if (length (Methods routeInfo) =? 0)%nat then s
      else
        let methods := addIfMissing (Methods routeInfo) MethodOptions true in
        mux_Handle s ("OPTIONS " +:+ pattern) (optionsHandler methods)
  end.

(** ** Serving *)

(** What the package takes from net/http at serving time: the dispatch of
    the multiplexer over the handlers registered with it, and
    [http.Redirect(w, req, url, code)]. *)
Record NetHTTP : Type := {
  ServeMux_ServeHTTP : list (string * Handler) -> Handler;
  Redirect : string -> Z -> Handler
}.

(** [s[len(s)-1]]: [None] stands for the index being out of range. *)
Fixpoint lastByte (s : string) : option ascii :=
  match s with
  | EmptyString => None
  | String c rest =>
      match rest with
      | EmptyString => Some c
      | String _ _ => lastByte rest
      end
  end.

(** [s[:len(s)-1]] for a non-empty [s]. *)
Fixpoint dropLast (s : string) : string :=
  match s with
  | EmptyString => EmptyString
  | String c rest =>
      match rest with
      | EmptyString => EmptyString
      | String _ _ => String c (dropLast rest)
      end
  end.

(** The body of [r.once.Do]: one discovery handler per documented path. *)
Definition synthesizeOptions (s : Root) : Root :=
  fold_left (fun s p => registerOptionsHandler p s)
    (map_to_list (Paths (openapi s))).*1 s.

Definition onceDo (r : Router) (s : Root) : Root :=
  if openapiDocs r then
    if once s then s else set_once (synthesizeOptions s) true
  else s.

(** The condition of the redirect; it indexes the path before testing that
    the path is not empty. *)
Definition trailingSlash (path : string) : result bool :=
  if negb (String.eqb path "/") then
    match lastByte path with
    | Some c => Ok (Ascii.eqb c "/")
    | None => Panic "index out of range [-1]"
    end
  else Ok false.

Section Serve.
Context (net : NetHTTP).
Context {W : Type} `{RW : ResponseWriter W}.

(** The predicate stored for a status code: the handler is not nil and the
    response does not carry the escape flag. *)
Definition interceptFn (v : option Handler) (w : excludeHeaderWriter W) : bool :=
  bool_decide (v ≠ None)
  && String.eqb (Header_Get (Header w) HeaderFlagDoNotIntercept) "".

Definition newInterceptor (s : Root) (w : W)
    : routingStatusInterceptWriter (excludeHeaderWriter W) :=
  {| iw_ResponseWriter :=
       {| ew_ResponseWriter := w;
          excludedHeaders := [HeaderFlagDoNotIntercept] |};
     interceptMap := interceptFn <$> handleStatus s;
     statusCode := 0;
     intercepted := false |}.

(** The writer on which the 405 override runs: the eraser, with [Allow] set
    when the document knows methods for the requested path. *)
Definition allowWriter (s : Root) (req : Request) (w : excludeHeaderWriter W)
    : excludeHeaderWriter W :=
  let pattern := URL_Path req in
  let allowedMethods := getMethodsForPattern s pattern in
  if (0 <? length allowedMethods)%nat
  then SetHeader
         (Header_Set (Header w) "Allow" (strings_Join allowedMethods ", ")) w
  else w.

(** A call through a [http.HandlerFunc] that may be nil. *)
Definition callHandler (v : option Handler) (req : Request)
    (w : excludeHeaderWriter W) : result (excludeHeaderWriter W) :=
  match v with
  | Some h => Ok (h (excludeHeaderWriter W) _ req w)
  | None => Panic "invalid memory address or nil pointer dereference"
  end.

(** The statements of [ServeHTTP] after [r.mux.ServeHTTP(interceptor, req)]. *)
Definition afterDispatch (s : Root) (req : Request)
    (interceptor : routingStatusInterceptWriter (excludeHeaderWriter W))
    : result (excludeHeaderWriter W) :=
  let w := iw_ResponseWriter interceptor in
  if intercepted interceptor then
    if (statusCode interceptor =? StatusMethodNotAllowed)%Z then
      callHandler
        (default None (handleStatus s !! StatusMethodNotAllowed))
        req (allowWriter s req w)
    else
      match handleStatus s !! statusCode interceptor with
      | Some v => callHandler v req w
      | None => Ok w
      end
  else Ok w.

(** [ServeHTTP] on the root node. *)
Definition ServeHTTP (r : Router) (s : Root) (w : W) (req : Request)
    : result (Root * W) :=
  let s := onceDo r s in
  redirect ←
    (if redirectTrailingSlash r then trailingSlash (URL_Path req) else Ok false);
  if (redirect : bool) then
    Ok (s, Redirect net (dropLast (URL_Path req)) DefaultRedirectStatusCode
             W _ req w)
  else
    let interceptor := newInterceptor s w in
    let interceptor :=
      ServeMux_ServeHTTP net (mux s)
        (routingStatusInterceptWriter (excludeHeaderWriter W)) _ req interceptor in
    w' ← afterDispatch s req interceptor;
    Ok (s, ew_ResponseWriter w').
End Serve.

(** * Vocabulary of the statements

    Definitions that serve to state the properties below: views of the
    state, example declarations and routers, a stand-in for net/http.  Where
    the code does something else than a sentence of the specification says,
    that sentence is kept as a proposition, to be refuted on a concrete input
    next to the theorem that states what the code does. *)

(** "If intercepted, discard the bytes and report them as successfully
    written (no error)": the count returned is the length of the slice. *)
Definition Write_reports_bytes_written : Prop :=
  forall (W : Type) (RW : ResponseWriter W)
         (w : routingStatusInterceptWriter W) (data : list Byte.byte),
    intercepted w = true ->
    routingStatusInterceptWriter_Write data w
    = (w, (Z.of_nat (length data), None)).

(** "idle -> forwarded on a non-matching writeHeader ...; both are terminal":
    after a [WriteHeader] that was forwarded, no further [WriteHeader]
    changes the state or the recorded status code. *)
Definition forwarded_is_terminal : Prop :=
  forall (W : Type) (RW : ResponseWriter W)
         (w : routingStatusInterceptWriter W) (code code' : Z),
    intercepted w = false ->
    matches w code = false ->
    let w1 := routingStatusInterceptWriter_WriteHeader code w in
    let w2 := routingStatusInterceptWriter_WriteHeader code' w1 in
    intercepted w2 = intercepted w1 /\ statusCode w2 = statusCode w1.

(** An interceptor over a recording writer with a predicate for 404 that
    always holds. *)
Definition interceptor404 (isIntercepted : bool)
    : routingStatusInterceptWriter Recorder :=
  {| iw_ResponseWriter := newRecorder;
     interceptMap := {[ StatusNotFound := fun _ : Recorder => true ]};
     statusCode := 0;
     intercepted := isIntercepted |}.

(** A middleware that acts on the writer before it calls the next handler
    and again after the next handler has returned. *)
Definition bracket (before after : Handler) : Middleware :=
  fun next W RW req w => after W RW req (next W RW req (before W RW req w)).

(** Handlers run one after the other on the same writer. *)
Definition runAll (hs : list Handler) : Handler :=
  fun W RW req w => fold_left (fun w h => h W RW req w) hs w.

(** Middlewares folded around a handler, the first one outermost. *)
Definition wrapAll (ms : list Middleware) (handler : Handler) : Handler :=
  fold_right (fun m next => m next) handler ms.

(** The component store of the document. *)
Definition componentStore (s : Root) : gmap string Schema :=
  Schemas (OpenAPI_Components (openapi s)).

(** The property name the response translation gives a field: the part of
    the [json] tag before the first comma when there is a tag other than
    ["-"], the name of the field otherwise. *)
Definition outFieldName (f : reflect.StructField) : string :=
  let jsonTag := reflect.Field_Tag_json f in
  if negb (String.eqb jsonTag "") && negb (String.eqb jsonTag "-")
  then default "" (head (strings_Split jsonTag ","))
  else reflect.Field_Name f.

(** The properties and the object schema that the response translation
    derives from the fields of a struct type. *)
Definition outProperties (fields : list reflect.StructField)
    : gmap string Schema :=
  fold_left
    (fun properties f =>
       <[outFieldName f :=
           Schema_ofType (kindTypeName (reflect.Type_Kind (reflect.Field_Type f)))]>
         properties)
    fields ∅.

Definition outObjectSchema (fields : list reflect.StructField) : Schema :=
  mkSchema "" "object" "" (outProperties fields) None [].

(** ** Sample declarations for the examples *)

Definition getOk {A : Type} (d : A) (x : result A) : A :=
  match x with Ok a => a | Panic _ => d end.

Definition stringType : reflect.Type_ := reflect.Plain "string" reflect.PString.
Definition intType : reflect.Type_ := reflect.Plain "int" reflect.PInt.

(** [type User struct { ID string `json:"id"`; Name string `json:"name"` }] *)
Definition User : reflect.Type_ :=
  reflect.StructOf "User"
    [reflect.mkStructField "ID" "id" stringType;
     reflect.mkStructField "Name" "name" stringType].


Definition noDocs : Docs :=
  {| Docs_Tags := []; Docs_Summary := ""; Docs_Description := "";
     Docs_Parameters := []; Docs_RequestBody := None; Docs_Responses := ∅;
     Docs_Security := []; Docs_In := None; Docs_Out := None |}.

(** [Docs{Out: map[string]DocOut{code: {ApplicationType: "application/json",
    Object: object}}}] *)
Definition docsOut (code : string) (object : reflect.any) : Docs :=
  {| Docs_Tags := []; Docs_Summary := ""; Docs_Description := "";
     Docs_Parameters := []; Docs_RequestBody := None; Docs_Responses := ∅;
     Docs_Security := []; Docs_In := None;
     Docs_Out :=
       Some {[ code := {| ApplicationType := "application/json";
                          DocOut_Description := "";
                          DocOut_Object := object |} ]} |}.

(** [Docs{In: map[string]DocIn{"application/json": {Object: object}}}] *)
Definition docsIn (object : reflect.any) : Docs :=
  {| Docs_Tags := []; Docs_Summary := ""; Docs_Description := "";
     Docs_Parameters := []; Docs_RequestBody := None; Docs_Responses := ∅;
     Docs_Security := [];
     Docs_In :=
       Some {[ "application/json" :=
                 {| DocIn_Object := object; DocIn_Required := false |} ]};
     Docs_Out := None |}.

(** A handler that only answers with a status code. *)
Definition statusHandler (code : Z) : Handler :=
  fun W RW req w => WriteHeader code w.

(** [New(mux, "Example API", "1.0.0")] on a fresh multiplexer, and the same
    router after [UseOpenapiDocs(true)]. *)
Definition exampleRouter : Router := (New [] "Example API" "1.0.0").1.
Definition exampleRoot : Root := (New [] "Example API" "1.0.0").2.
Definition docsRouter : Router := UseOpenapiDocs exampleRouter true.

(** [type Account struct { ID string `json:"id"`; Age int }] *)
Definition Account : reflect.Type_ :=
  reflect.StructOf "Account"
    [reflect.mkStructField "ID" "id" stringType;
     reflect.mkStructField "Age" "" intType].

(** Request-body translation as the specification words it, "identical
    structural translation, applied to declared request bodies": the
    component schema of a sample is the one [handleDocOut] derives for it,
    and the request body refers to it by name. *)
Definition docInEntry_spec (schemas : gmap string Schema)
    (contentType : string) (docIn : DocIn)
    (st : option (gmap string Schema) * option RequestBody)
    : result (option (gmap string Schema) * option RequestBody) :=
  let '(componentSchemas, requestBody) := st in
  '(schema, componentSchemas) ←
    docOutObject (DocIn_Object docIn) schemas componentSchemas;
  let content := default ∅ (RequestBody_Content <$> requestBody) in
  Ok (componentSchemas,
      Some {| RequestBody_Description := "";
              RequestBody_Content :=
                <[contentType := {| MediaType_Schema := schema |}]> content;
              RequestBody_Required := false |}).

Definition handleDocIn_spec (do : option (gmap string DocIn))
    (schemas : gmap string Schema)
    : result (option (gmap string Schema) * option RequestBody) :=
  match do with
  | None => Ok (None, None)
  | Some do =>
      forEntries (map_to_list do) (docInEntry_spec schemas) (None, None)
  end.

(** The component schemas a translation produced, if it returned. *)
Definition derived {B : Type}
    (x : result (option (gmap string Schema) * B))
    : option (gmap string Schema) :=
  match x with
  | Ok (cs, _) => cs
  | Panic _ => None
  end.

(** ** The registered methods of a path, and a stand-in for net/http *)

Definition allMethods : list string :=
  [MethodGet; MethodHead; MethodPost; MethodPut; MethodPatch; MethodDelete;
   MethodOptions].

(** The methods under which a path was handed to the multiplexer. *)
Definition methodsOf (routes : list (string * Handler)) (path : string)
    : list string :=
  filter (fun m => (m +:+ " " +:+ path) ∈ routes.*1) allMethods.


(** The handler the multiplexer holds for a pattern (the first, if any). *)
Fixpoint findHandler (routes : list (string * Handler)) (pattern : string)
    : option Handler :=
  match routes with
  | [] => None
  | (p, h) :: rest =>
      if String.eqb p pattern then Some h else findHandler rest pattern
  end.

(** [http.Error(w, error, code)]. *)
Definition http_Error (error : string) (code : Z) : Handler :=
  fun W RW req w =>
    let h := Header_Set (Header w) "Content-Type" "text/plain; charset=utf-8" in
    let h := Header_Set h "X-Content-Type-Options" "nosniff" in
    let w := WriteHeader code (SetHeader h w) in
    (Write (list_byte_of_string (error +:+ String "010"%char "")) w).1.

(** A multiplexer for the examples.  It knows literal patterns only: a
    request is served by the handler registered for its method and path; a
    path known under other methods is answered the way [http.ServeMux]
    answers it, with an [Allow] header and [http.Error] 405; anything else
    with [http.Error] 404. *)
Definition literalMux (routes : list (string * Handler)) : Handler :=
  fun W RW req w =>
    match findHandler routes (Method req +:+ " " +:+ URL_Path req) with
    | Some h => h W RW req w
    | None =>
        match methodsOf routes (URL_Path req) with
        | [] => http_Error "404 page not found" StatusNotFound W RW req w
        | allowed =>
            http_Error "Method Not Allowed" StatusMethodNotAllowed W RW req
              (SetHeader
                 (Header_Set (Header w) "Allow" (strings_Join allowed ", ")) w)
        end
    end.

(** [http.Redirect] as far as the examples look at it: the [Location]
    header and the status code. *)
Definition literalRedirect (url : string) (code : Z) : Handler :=
  fun W RW req w =>
    WriteHeader code (SetHeader (Header_Set (Header w) "Location" url) w).

Definition literalNet : NetHTTP :=
  {| ServeMux_ServeHTTP := literalMux; Redirect := literalRedirect |}.

(** The methods the document knows for a path. *)
Definition documentedMethods (s : Root) (path : string) : list string :=
  default [] (Methods <$> Paths (openapi s) !! path).

(** ** The two sentences about [Allow], as the specification words them *)



(** Documentation on; [Get("/x", ...)] and [Head("/x", ...)], each with a
    declaration; a 405 override. *)
Definition getHeadRoot : Root :=
  let s := exampleRoot in
  let s := getOk s (Get_ docsRouter "/x" (statusHandler 200) [noDocs] s) in
  let s := getOk s (Head_ docsRouter "/x" (statusHandler 200) [noDocs] s) in
  HandleStatus StatusMethodNotAllowed
    (Some (statusHandler StatusMethodNotAllowed)) s.






(** * Further vocabulary

    Definitions for the properties of the rest of the package: nested
    groups, handlers that are fixed sequences of writer calls, writers that
    keep their header map, the file-serving registrations and the middleware
    package. *)

(** The node reached from [r] through nested [Group] calls with the given
    sub-paths, outermost first. *)
Definition nest (r : Router) (subPaths : list string) : Router :=
  fold_left subRouter subPaths r.

(** The strings of a list, one after the other. *)
Definition concatAll (l : list string) : string :=
  fold_right String.append "" l.


(** Whether a character occurs in a string. *)
Fixpoint occurs (c : ascii) (s : string) : bool :=
  match s with
  | EmptyString => false
  | String d rest => Ascii.eqb d c || occurs c rest
  end.

(** What [OperationID] makes of one segment of a path. *)
Definition operationSegment (part : string) : string :=
  if String.eqb part "" then part
  else strings_Title (strings_TrimRight (strings_TrimLeft part "{") "}").

(** ** Handlers that are a fixed sequence of calls on the writer *)

Inductive op : Type :=
| OpSetHeader (key value : string)        (* w.Header().Set(key, value) *)
| OpDelHeader (key : string)              (* w.Header().Del(key) *)
| OpWriteHeader (code : Z)                (* w.WriteHeader(code) *)
| OpWrite (data : list Byte.byte).        (* w.Write(data) *)

Definition runOp {W : Type} `{RW : ResponseWriter W} (o : op) (w : W) : W :=
  match o with
  | OpSetHeader key value => SetHeader (Header_Set (Header w) key value) w
  | OpDelHeader key => SetHeader (Header_Del (Header w) key) w
  | OpWriteHeader code => WriteHeader code w
  | OpWrite data => (Write data w).1
  end.

Definition runOps {W : Type} `{RW : ResponseWriter W} (ops : list op) (w : W)
    : W :=
  fold_left (fun w o => runOp o w) ops w.

Definition script (ops : list op) : Handler :=
  fun W RW req w => runOps ops w.

Definition isHeaderOp (o : op) : bool :=
  match o with
  | OpSetHeader _ _ | OpDelHeader _ => true
  | OpWriteHeader _ | OpWrite _ => false
  end.

(** A writer whose header map is what was last stored in it: writing the
    status or the body does not touch the map. *)
Class HeaderLaws (W : Type) `{RW : ResponseWriter W} : Prop := {
  Header_SetHeader : forall (h : header) (w : W), Header (SetHeader h w) = h;
  Header_WriteHeader : forall (code : Z) (w : W),
    Header (WriteHeader code w) = Header w;
  Header_Write : forall (data : list Byte.byte) (w : W),
    Header (Write data w).1 = Header w
}.

(** The eraser [ServeHTTP] puts around the writer it is given. *)
Definition eraser {W : Type} (w : W) : excludeHeaderWriter W :=
  {| ew_ResponseWriter := w; excludedHeaders := [HeaderFlagDoNotIntercept] |}.



(** The status codes a script passes to [WriteHeader]. *)
Definition writtenCodes (ops : list op) : list Z :=
  omap (fun o => match o with OpWriteHeader code => Some code | _ => None end)
    ops.

(** What [registerOptionsHandler] hands to the multiplexer for a key of the
    path table, if anything. *)
Definition optionsEntry (s : Root) (strippedPattern : string)
    : option (string * Handler) :=
  let pattern := default strippedPattern (patternMap s !! strippedPattern) in
  match Paths (openapi s) !! pattern with
  | Some routeInfo =>
      match Methods routeInfo with
      | [] => None
      | _ :: _ =>
          Some ("OPTIONS " +:+ pattern,
                optionsHandler (MethodOptions :: Methods routeInfo))
      end
  | None => None
  end.

(** The methods that a descriptor can hold. *)
Definition descriptorMethods : list string :=
  ["GET"; "POST"; "PUT"; "DELETE"; "PATCH"].

(** The operation a descriptor holds for a method. *)
Definition operationFor (item : PathItem) (method : string) : option Operation :=
  if String.eqb method "GET" then Get item
  else if String.eqb method "POST" then Post item
  else if String.eqb method "PUT" then Put item
  else if String.eqb method "DELETE" then Delete item
  else if String.eqb method "PATCH" then Patch item
  else None.


(** The properties the input translation derives from the fields of a
    struct type: the field's name, and the name of the field's type. *)
Definition inProperties (fields : list reflect.StructField)
    : gmap string Schema :=
  fold_left
    (fun properties f =>
       <[reflect.Field_Name f :=
           Schema_ofType (reflect.Type_Name (reflect.Field_Type f))]> properties)
    fields ∅.

(** The interceptor of the earlier revision as a writer: [Header] is
    promoted from the embedded writer, the other two methods are its own. *)
#[export] Instance Legacy_routingStatusInterceptWriter_RW
    {W : Type} `{RW : ResponseWriter W}
    : ResponseWriter (Legacy.routingStatusInterceptWriter W) := {
  Header w := Header (Legacy.ResponseWriter_ w);
  SetHeader h w :=
    {| Legacy.ResponseWriter_ := SetHeader h (Legacy.ResponseWriter_ w);
       Legacy.intercept404 := Legacy.intercept404 w;
       Legacy.intercept405 := Legacy.intercept405 w;
       Legacy.intercept500 := Legacy.intercept500 w;
       Legacy.statusCode := Legacy.statusCode w;
       Legacy.intercepted := Legacy.intercepted w |};
  WriteHeader := Legacy.WriteHeader';
  Write := Legacy.Write'
}.


(** ** The middleware package *)

Definition StatusForbidden : Z := 403.

(** [len(s) >= len(suffix) && s[len(s)-len(suffix):] == suffix] *)
Definition strings_HasSuffix (s suffix : string) : bool :=
  (String.length suffix <=? String.length s)%nat
  && String.eqb
       (substring (String.length s - String.length suffix)
          (String.length suffix) s)
       suffix.

(** [w.Header().Set(key, value)] *)
Definition setHeader {W : Type} `{RW : ResponseWriter W}
    (key value : string) (w : W) : W :=
  SetHeader (Header_Set (Header w) key value) w.

(** The bytes a script passes to [Write], in order. *)
Definition written (ops : list op) : list Byte.byte :=
  concat (omap (fun o => match o with OpWrite data => Some data | _ => None end)
            ops).

(** What of a script reaches the writer under the content-length writer:
    the header operations and the first [WriteHeader]; [wrote] tells whether
    a [WriteHeader] went through before. *)
Fixpoint forwarded (ops : list op) (wrote : bool) : list op :=
  match ops with
  | [] => []
  | OpWriteHeader code :: rest =>
      if wrote then forwarded rest true
      else OpWriteHeader code :: forwarded rest true
  | OpWrite _ :: rest => forwarded rest wrote
  | o :: rest => o :: forwarded rest wrote
  end.

(** Whether a script stores or deletes the header [key]. *)
Definition touchesHeader (key : string) (o : op) : bool :=
  match o with
  | OpSetHeader k _ | OpDelHeader k => String.eqb k key
  | _ => false
  end.

Module middleware.

Record contentLengthWriter (W : Type) : Type := {
  ResponseWriter_ : W;
  buffer : list Byte.byte;
  statusCode : Z;
  wroteHeader : bool
}.
Arguments ResponseWriter_ {W} _.
Arguments buffer {W} _.
Arguments statusCode {W} _.
Arguments wroteHeader {W} _.

Definition contentLengthWriter_WriteHeader {W : Type} `{RW : ResponseWriter W}
    (code : Z) (clw : contentLengthWriter W) : contentLengthWriter W :=
  if negb (wroteHeader clw) then
    {| ResponseWriter_ := WriteHeader code (ResponseWriter_ clw);
       buffer := buffer clw;
       statusCode := code;
       wroteHeader := true |}
  else clw.

(** [clw.buffer.Write(data)]: the buffer grows by [data]; the call returns
    [len(data)] and no error. *)
Definition contentLengthWriter_Write {W : Type}
    (data : list Byte.byte) (clw : contentLengthWriter W)
    : contentLengthWriter W * (Z * option string) :=
  ({| ResponseWriter_ := ResponseWriter_ clw;
      buffer := (buffer clw ++ data)%list;
      statusCode := statusCode clw;
      wroteHeader := wroteHeader clw |},
   (Z.of_nat (length data), None)).

#[global] Instance contentLengthWriter_RW {W : Type} `{RW : ResponseWriter W}
    : ResponseWriter (contentLengthWriter W) := {
  Header clw := Header (ResponseWriter_ clw);
  SetHeader h clw :=
    {| ResponseWriter_ := SetHeader h (ResponseWriter_ clw);
       buffer := buffer clw;
       statusCode := statusCode clw;
       wroteHeader := wroteHeader clw |};
  WriteHeader := contentLengthWriter_WriteHeader;
  Write := contentLengthWriter_Write
}.

(** The writer the middleware hands to the next handler. *)
Definition newContentLengthWriter {W : Type} (w : W) : contentLengthWriter W :=
  {| ResponseWriter_ := w; buffer := []; statusCode := 0;
     wroteHeader := false |}.

(** The statements of the middleware after [next.ServeHTTP(clw, r)].  The
    last statement writes to [w], which is the writer embedded in [clw]. *)
Definition finish {W : Type} `{RW : ResponseWriter W}
    (clw : contentLengthWriter W) : W :=
  let contentLength := length (buffer clw) in
  let clw :=
    if String.eqb (Header_Get (Header clw) "Content-Length") ""
    then setHeader "Content-Length" (pretty contentLength) clw
    else clw in
  let clw :=
    if negb (wroteHeader clw) then WriteHeader (statusCode clw) clw else clw in
  (Write (buffer clw) (ResponseWriter_ clw)).1.

Definition ContentLengthMiddleware : Middleware :=
  fun next W RW r w =>
    finish (next (contentLengthWriter W) _ r (newContentLengthWriter w)).

Record CORSOptions : Type := {
  AllowedOrigins : list string;
  AllowedMethods : list string;
  AllowedHeaders : list string;
  ExposedHeaders : list string;
  AllowCredentials : bool;
  MaxAge : Z
}.

(** [o[1:]] *)
Definition dropFirst (o : string) : string :=
  match o with
  | EmptyString => EmptyString
  | String _ rest => rest
  end.

(** The loop that sorts the configured origins, run when the middleware is
    made: it stops at the first ["*"]. *)
Fixpoint preprocessOrigins (origins allowedOrigins wildcardOrigins : list string)
    : bool * list string * list string :=
  match origins with
  | [] => (false, allowedOrigins, wildcardOrigins)
  | o :: rest =>
      if String.eqb o "*" then (true, allowedOrigins, wildcardOrigins)
      else if strings_HasPrefix o "*."
      then preprocessOrigins rest allowedOrigins
             (wildcardOrigins ++ [dropFirst o])%list
      else preprocessOrigins rest (allowedOrigins ++ [o])%list wildcardOrigins
  end.

(** [for _, o := range allowedOrigins { if o == origin { allowedOrigin =
    origin; break } }], from an empty [allowedOrigin]. *)
Fixpoint rangeAllowedOrigins (allowedOrigins : list string) (origin : string)
    : string :=
  match allowedOrigins with
  | [] => ""
  | o :: rest =>
      if String.eqb o origin then origin else rangeAllowedOrigins rest origin
  end.

Fixpoint rangeWildcardOrigins (wildcardOrigins : list string) (origin : string)
    : string :=
  match wildcardOrigins with
  | [] => ""
  | wo :: rest =>
      if strings_HasSuffix origin wo then origin
      else rangeWildcardOrigins rest origin
  end.

(** The value for [Access-Control-Allow-Origin] the middleware settles on
    for a non-empty origin; [None] stands for "origin not allowed". *)
Definition allowedOriginFor (options : CORSOptions) (origin : string)
    : option string :=
  let '(allowAllOrigins, allowedOrigins, wildcardOrigins) :=
    preprocessOrigins (AllowedOrigins options) [] [] in
  if (allowAllOrigins : bool) then Some "*"
  else
    let allowedOrigin := rangeAllowedOrigins allowedOrigins origin in
    let allowedOrigin :=
      if String.eqb allowedOrigin ""
      then rangeWildcardOrigins wildcardOrigins origin
      else allowedOrigin in
    if String.eqb allowedOrigin "" then None else Some allowedOrigin.

Section CORS.
(** [req.Header] of a request. *)
Context (Request_Header : Request -> header).

(** The handler the middleware returns.  The sorting of the configured
    origins happens once, when the middleware is made; it reads nothing but
    the options, so that [allowedOriginFor] may run it per request. *)
Definition CORS (options : CORSOptions) : Middleware :=
  fun next W RW req w =>
    let origin := Header_Get (Request_Header req) "Origin" in
    if String.eqb origin "" then next W RW req w
    else
      match allowedOriginFor options origin with
      | None => WriteHeader StatusForbidden w
      | Some allowedOrigin =>
          if String.eqb (Method req) MethodOptions then
            let w := setHeader "Access-Control-Allow-Origin" allowedOrigin w in
            let w :=
              if AllowCredentials options
              then setHeader "Access-Control-Allow-Credentials" "true" w
              else w in
            let w :=
              if (0 <? length (AllowedMethods options))%nat
              then setHeader "Access-Control-Allow-Methods"
                     (strings_Join (AllowedMethods options) ", ") w
              else
                let reqMethod :=
                  Header_Get (Request_Header req)
                    "Access-Control-Request-Method" in
                if negb (String.eqb reqMethod "")
                then setHeader "Access-Control-Allow-Methods" reqMethod w
                else w in
            let w :=
              if (0 <? length (AllowedHeaders options))%nat
              then setHeader "Access-Control-Allow-Headers"
                     (strings_Join (AllowedHeaders options) ", ") w
              else
                let reqHeaders :=
                  Header_Get (Request_Header req)
                    "Access-Control-Request-Headers" in
                if negb (String.eqb reqHeaders "")
                then setHeader "Access-Control-Allow-Headers" reqHeaders w
                else w in
            let w :=
              if (0 <? MaxAge options)%Z
              then setHeader "Access-Control-Max-Age"
                     (pretty (MaxAge options)) w
              else w in
            WriteHeader StatusNoContent w
          else
            let w := setHeader "Access-Control-Allow-Origin" allowedOrigin w in
            let w :=
              if AllowCredentials options
              then setHeader "Access-Control-Allow-Credentials" "true" w
              else w in
            let w :=
              if (0 <? length (ExposedHeaders options))%nat
              then setHeader "Access-Control-Expose-Headers"
                     (strings_Join (ExposedHeaders options) ", ") w
              else w in
            next W RW req w
      end.

(** The header operations of the preflight branch, as a script. *)
Definition preflightHeaders (options : CORSOptions) (req : Request)
    (allowedOrigin : string) : list op :=
  ([OpSetHeader "Access-Control-Allow-Origin" allowedOrigin]
   ++ (if AllowCredentials options
       then [OpSetHeader "Access-Control-Allow-Credentials" "true"] else [])
   ++ (if (0 <? length (AllowedMethods options))%nat
       then [OpSetHeader "Access-Control-Allow-Methods"
               (strings_Join (AllowedMethods options) ", ")]
       else
         let reqMethod :=
           Header_Get (Request_Header req) "Access-Control-Request-Method" in
         if negb (String.eqb reqMethod "")
         then [OpSetHeader "Access-Control-Allow-Methods" reqMethod] else [])
   ++ (if (0 <? length (AllowedHeaders options))%nat
       then [OpSetHeader "Access-Control-Allow-Headers"
               (strings_Join (AllowedHeaders options) ", ")]
       else
         let reqHeaders :=
           Header_Get (Request_Header req) "Access-Control-Request-Headers" in
         if negb (String.eqb reqHeaders "")
         then [OpSetHeader "Access-Control-Allow-Headers" reqHeaders] else [])
   ++ (if (0 <? MaxAge options)%Z
       then [OpSetHeader "Access-Control-Max-Age" (pretty (MaxAge options))]
       else []))%list.

(** The header operations of the branch for an actual request. *)
Definition actualHeaders (options : CORSOptions) (allowedOrigin : string)
    : list op :=
  ([OpSetHeader "Access-Control-Allow-Origin" allowedOrigin]
   ++ (if AllowCredentials options
       then [OpSetHeader "Access-Control-Allow-Credentials" "true"] else [])
   ++ (if (0 <? length (ExposedHeaders options))%nat
       then [OpSetHeader "Access-Control-Expose-Headers"
               (strings_Join (ExposedHeaders options) ", ")]
       else []))%list.
End CORS.

End middleware.

(** An origin is listed when it is one of the configured origins, or when
    some configured origin is ["*."] followed by [t] and the origin ends in
    ["."] followed by [t]. *)
Definition originListed (origins : list string) (origin : string) : Prop :=
  origin ∈ origins
  \/ exists t pre, ("*." +:+ t) ∈ origins /\ origin = pre +:+ "." +:+ t.

(** The header [key] after a script, on a writer that keeps its header
    map. *)
Definition headerAfter {W : Type} `{RW : ResponseWriter W}
    (ops : list op) (w : W) (key : string) : string :=
  Header_Get (Header (runOps ops w)) key.

(** A request header map that holds the given origin only. *)
Definition fromOrigin (origin : string) : Request -> header :=
  fun _ => {[ "Origin" := [origin] ]}.

(** The response headers the CORS middleware writes. *)
Definition corsKeys : list string :=
  ["Access-Control-Allow-Origin"; "Access-Control-Allow-Credentials";
   "Access-Control-Allow-Methods"; "Access-Control-Allow-Headers";
   "Access-Control-Max-Age"; "Access-Control-Expose-Headers"].

(** The header keys a script stores or deletes. *)
Definition setKeys (ops : list op) : list string :=
  omap (fun o => match o with
                 | OpSetHeader k _ | OpDelHeader k => Some k
                 | _ => None
                 end) ops.

(** [CORSOptions{AllowedOrigins: []string{"https://example.com",
    "*.example.org"}, AllowedMethods: []string{"GET", "POST"},
    ExposedHeaders: []string{"X-Total"}, AllowCredentials: true,
    MaxAge: 600}] *)
Definition exampleCORS : middleware.CORSOptions :=
  {| middleware.AllowedOrigins := ["https://example.com"; "*.example.org"];
     middleware.AllowedMethods := ["GET"; "POST"];
     middleware.AllowedHeaders := [];
     middleware.ExposedHeaders := ["X-Total"];
     middleware.AllowCredentials := true;
     middleware.MaxAge := 600 |}.

(** ** Serving files *)



(** * Properties *)

(** ** The intercept writer *)

Section WriterFacts.
Context {W : Type} `{RW : ResponseWriter W}.

Lemma rangeInterceptMap_true (entries : list (Z * (W -> bool))) code inner :
  rangeInterceptMap entries code inner = true
  <-> exists fn, (code, fn) ∈ entries /\ fn inner = true.
Proof.
  induction entries as [|[k fn] rest IH]; simpl.
  - split; [discriminate|]. intros (fn & Hin & _). by apply elem_of_nil in Hin.
  - destruct ((k =? code)%Z && fn inner) eqn:E.
    + apply andb_true_iff in E as [Hk Hfn]. apply Z.eqb_eq in Hk. subst k.
      split; [|done]. intros _. exists fn. split; [left|done].
    + rewrite IH. split.
      * intros (fn' & Hin & Hfn'). exists fn'. split; [by right|done].
      * intros (fn' & Hin & Hfn'). apply elem_of_cons in Hin as [Heq|Hin].
        -- inversion Heq; subst. rewrite Z.eqb_refl, Hfn' in E. discriminate.
        -- eauto.
Qed.

(** The loop over the map decides exactly what a lookup decides. *)
Lemma rangeInterceptMap_matches (w : routingStatusInterceptWriter W) code :
  rangeInterceptMap (map_to_list (interceptMap w)) code (iw_ResponseWriter w)
  = matches w code.
Proof.
  unfold matches.
  destruct (rangeInterceptMap _ _ _) eqn:E.
  - apply rangeInterceptMap_true in E as (fn & Hin & Hfn).
    apply elem_of_map_to_list in Hin. by rewrite Hin.
  - destruct (interceptMap w !! code) as [fn|] eqn:Hl; [|done].
    destruct (fn (iw_ResponseWriter w)) eqn:Hfn; [|done].
    assert (rangeInterceptMap (map_to_list (interceptMap w)) code
              (iw_ResponseWriter w) = true) as Ht.
    { apply rangeInterceptMap_true. exists fn.
      split; [by apply elem_of_map_to_list|done]. }
    congruence.
Qed.

Lemma WriteHeader_intercepted (w : routingStatusInterceptWriter W) code :
  intercepted w = true -> routingStatusInterceptWriter_WriteHeader code w = w.
Proof. intros H. unfold routingStatusInterceptWriter_WriteHeader. by rewrite H. Qed.

Lemma WriteHeader_all_intercepted (w : routingStatusInterceptWriter W) codes :
  intercepted w = true ->
  fold_left (fun w c => routingStatusInterceptWriter_WriteHeader c w) codes w = w.
Proof.
  intros H. induction codes as [|c codes IH]; simpl; [done|].
  by rewrite WriteHeader_intercepted.
Qed.

Lemma Write_intercepted (w : routingStatusInterceptWriter W) data :
  intercepted w = true ->
  routingStatusInterceptWriter_Write data w = (w, (0, None)).
Proof. intros H. unfold routingStatusInterceptWriter_Write. by rewrite H. Qed.

Lemma Write_all_intercepted (w : routingStatusInterceptWriter W) chunks :
  intercepted w = true ->
  fold_left (fun w d => (routingStatusInterceptWriter_Write d w).1) chunks w = w.
Proof.
  intros H. induction chunks as [|d chunks IH]; simpl; [done|].
  by rewrite Write_intercepted.
Qed.
End WriterFacts.

(** The interceptor of the earlier revision takes the same steps as the
    current one over the map of its three predicates. *)
Lemma Legacy_WriteHeader_agrees {W : Type} `{RW : ResponseWriter W}
    (w : Legacy.routingStatusInterceptWriter W) (code : Z) :
  ofLegacy (Legacy.WriteHeader' code w)
  = routingStatusInterceptWriter_WriteHeader code (ofLegacy w).
Proof.
  unfold Legacy.WriteHeader', routingStatusInterceptWriter_WriteHeader.
  rewrite rangeInterceptMap_matches. unfold matches.
  destruct w as [inner i404 i405 i500 sc [|]]; simpl; [done|].
  unfold StatusNotFound, StatusMethodNotAllowed, StatusInternalServerError.
  rewrite !lookup_insert, lookup_singleton.
  destruct (Z.eqb_spec code 404) as [->|H404].
  { rewrite decide_True by done. simpl.
    rewrite ?andb_true_r, ?andb_false_r, ?orb_false_r.
    by destruct (i404 inner). }
  rewrite (decide_False (P := 404 = code)) by congruence.
  destruct (Z.eqb_spec code 405) as [->|H405].
  { rewrite decide_True by done. simpl.
    rewrite ?andb_true_r, ?andb_false_r, ?orb_false_r. simpl.
    by destruct (i405 inner). }
  rewrite (decide_False (P := 405 = code)) by congruence.
  destruct (Z.eqb_spec code 500) as [->|H500].
  { rewrite decide_True by done. simpl.
    rewrite ?andb_true_r, ?andb_false_r, ?orb_false_r. simpl.
    by destruct (i500 inner). }
  rewrite (decide_False (P := 500 = code)) by congruence.
  by rewrite !andb_false_r.
Qed.

Lemma Legacy_Write_agrees {W : Type} `{RW : ResponseWriter W}
    (w : Legacy.routingStatusInterceptWriter W) (data : list Byte.byte) :
  (ofLegacy (Legacy.Write' data w).1, (Legacy.Write' data w).2)
  = routingStatusInterceptWriter_Write data (ofLegacy w).
Proof.
  unfold Legacy.Write', routingStatusInterceptWriter_Write.
  destruct w as [inner i404 i405 i500 sc [|]]; simpl; [done|].
  by destruct (Write data inner).
Qed.

(** C7, as the code has it.  Once intercepted, [Write] hands nothing to the
    inner writer, whatever and however often it is called, and returns the
    pair [(0, nil)]: no error, and a count of zero rather than the length of
    the slice.  While not intercepted it is the inner writer's [Write]: same
    bytes in, same count and error out, and nothing else of the interceptor
    changes. *)
Theorem Write_discards_or_forwards
    (W : Type) (RW : ResponseWriter W)
    (w : routingStatusInterceptWriter W) (data : list Byte.byte) :
  (intercepted w = true ->
     Write data w = (w, (0, None))
     /\ forall chunks,
          iw_ResponseWriter (fold_left (fun w d => (Write d w).1) chunks w)
          = iw_ResponseWriter w)
  /\ (intercepted w = false ->
        iw_ResponseWriter (Write data w).1 = (Write data (iw_ResponseWriter w)).1
        /\ (Write data w).2 = (Write data (iw_ResponseWriter w)).2
        /\ intercepted (Write data w).1 = false
        /\ statusCode (Write data w).1 = statusCode w
        /\ interceptMap (Write data w).1 = interceptMap w).
Proof.
  split; intros H.
  - split; [by apply Write_intercepted|].
    intros chunks. simpl. by rewrite Write_all_intercepted.
  - simpl. unfold routingStatusInterceptWriter_Write. rewrite H.
    by destruct (Write data (iw_ResponseWriter w)) as [inner r].
Qed.

Lemma Write_discards_or_forwards_witness :
  Write [Byte.x68; Byte.x69] (interceptor404 true)
  = (interceptor404 true, (0, None))
  /\ rec_calls (iw_ResponseWriter (Write [Byte.x68; Byte.x69] (interceptor404 false)).1)
     = [CallWrite [Byte.x68; Byte.x69]].
Proof.
  split.
  - apply (Write_discards_or_forwards Recorder _ (interceptor404 true)
             [Byte.x68; Byte.x69]). reflexivity.
  - destruct (Write_discards_or_forwards Recorder _ (interceptor404 false)
                [Byte.x68; Byte.x69]) as [_ Hf].
    destruct (Hf eq_refl) as [-> _]. reflexivity.
Defined.

(** C7, as the specification words it, fails: two bytes written to an
    intercepted writer are reported as zero bytes written. *)
Lemma Write_intercepted_reports_zero : ~ Write_reports_bytes_written.
Proof.
  intros H.
  specialize (H Recorder _ (interceptor404 true) [Byte.x68; Byte.x69] eq_refl).
  discriminate H.
Qed.

(** C8, as the code has it.  [WriteHeader] has two states, told apart by the
    flag [intercepted].  Intercepted is terminal: no run of further calls
    changes the flag, the recorded status code or the inner writer.  From the
    other state a call whose status code has a registered predicate that
    holds records the code, sets the flag and forwards nothing; any other
    call records the code and forwards it, and the flag stays clear, so that
    a later matching call still intercepts. *)
Theorem WriteHeader_transitions
    (W : Type) (RW : ResponseWriter W)
    (w : routingStatusInterceptWriter W) (code : Z) :
  (intercepted w = true ->
     forall codes, fold_left (fun w c => WriteHeader c w) codes w = w)
  /\ (intercepted w = false -> matches w code = true ->
        WriteHeader code w
        = {| iw_ResponseWriter := iw_ResponseWriter w;
             interceptMap := interceptMap w;
             statusCode := code;
             intercepted := true |})
  /\ (intercepted w = false -> matches w code = false ->
        WriteHeader code w
        = {| iw_ResponseWriter := WriteHeader code (iw_ResponseWriter w);
             interceptMap := interceptMap w;
             statusCode := code;
             intercepted := false |}).
Proof.
  repeat split.
  - intros H codes. simpl. by apply WriteHeader_all_intercepted.
  - intros H Hm. simpl. unfold routingStatusInterceptWriter_WriteHeader.
    by rewrite H, rangeInterceptMap_matches, Hm.
  - intros H Hm. simpl. unfold routingStatusInterceptWriter_WriteHeader.
    by rewrite H, rangeInterceptMap_matches, Hm.
Qed.

Lemma WriteHeader_transitions_witness :
  fold_left (fun w c => WriteHeader c w) [200; 404; 500] (interceptor404 true)
  = interceptor404 true
  /\ intercepted (WriteHeader 404 (interceptor404 false)) = true
  /\ rec_calls (iw_ResponseWriter (WriteHeader 200 (interceptor404 false)))
     = [CallWriteHeader 200].
Proof.
  destruct (WriteHeader_transitions Recorder _ (interceptor404 true) 200)
    as (Ht & _ & _).
  destruct (WriteHeader_transitions Recorder _ (interceptor404 false) 404)
    as (_ & Hi & _).
  destruct (WriteHeader_transitions Recorder _ (interceptor404 false) 200)
    as (_ & _ & Hf).
  split; [apply Ht; reflexivity|].
  split.
  - rewrite Hi; reflexivity.
  - rewrite Hf; reflexivity.
Defined.

(** C8, as the specification words it, fails: after a forwarded 200 a
    [WriteHeader(404)] with a handler registered for 404 enters the
    intercepted state and overwrites the recorded status code. *)
Lemma forwarded_then_intercepted : ~ forwarded_is_terminal.
Proof.
  intros H.
  destruct (H Recorder _ (interceptor404 false) 200 404 eq_refl eq_refl)
    as [Hi _].
  vm_compute in Hi. discriminate Hi.
Qed.

(** ** Schema components *)

Lemma bind_Ok {A B : Type} (e : result A) (k : A -> result B) (b : B) :
  (x ← e; k x) = Ok b -> exists a, e = Ok a /\ k a = Ok b.
Proof. destruct e as [a|msg]; [eauto|discriminate]. Qed.

Ltac inv_bind H :=
  let a := fresh "a" in
  let Ha := fresh "Ha" in
  apply bind_Ok in H as (a & Ha & H).

Lemma splitFrom_not_nil (sep : string) (skip : nat) (cur s : string) :
  splitFrom sep skip cur s <> [].
Proof.
  revert skip cur. induction s as [|c s IH]; intros skip cur; simpl; [done|].
  destruct skip; [|apply IH].
  match goal with |- context [if ?b then _ else _] => destruct b end;
    [done|apply IH].
Qed.

Lemma strings_Split_head (s sep : string) :
  strings_Split s sep !! 0%nat = Some (default "" (head (strings_Split s sep))).
Proof.
  unfold strings_Split.
  pose proof (splitFrom_not_nil sep 0 "" s) as Hne.
  by destruct (splitFrom sep 0 "" s).
Qed.

Lemma docOutField_struct name fields isNil (i : nat) f properties :
  fields !! i = Some f ->
  docOutField (reflect.mkValue (reflect.StructOf name fields) isNil) i properties
  = Ok (<[outFieldName f :=
            Schema_ofType (kindTypeName (reflect.Type_Kind (reflect.Field_Type f)))]>
          properties).
Proof.
  intros Hf. unfold docOutField, outFieldName. simpl. rewrite Hf. simpl.
  destruct (negb _ && negb _); [|done].
  by rewrite strings_Split_head.
Qed.

Lemma forRange_docOutField name fields isNil pre rest properties :
  fields = (pre ++ rest)%list ->
  forRange (length rest) (length pre)
    (docOutField (reflect.mkValue (reflect.StructOf name fields) isNil)) properties
  = Ok (fold_left
          (fun properties f =>
             <[outFieldName f :=
                 Schema_ofType
                   (kindTypeName (reflect.Type_Kind (reflect.Field_Type f)))]>
               properties)
          rest properties).
Proof.
  revert pre properties. induction rest as [|f rest IH]; intros pre properties ->.
  - done.
  - cbn [length forRange].
    rewrite (docOutField_struct name _ isNil (length pre) f).
    + cbn. specialize (IH (pre ++ [f])%list). rewrite length_app in IH.
      cbn in IH. replace (length pre + 1)%nat with (S (length pre)) in IH by lia.
      apply IH. by rewrite <- app_assoc.
    + by rewrite lookup_app_r, Nat.sub_diag.
Qed.




(** What a successful [registerDocs] did, statement by statement. *)
Lemma registerDocs_Ok r method pattern doc docs s s' :
  registerDocs r method pattern (doc :: docs) s = Ok s' ->
  exists cs1 routeResponse cs2 requestBody op,
    handleDocOut (Docs_Out doc) (componentStore s) = Ok (cs1, routeResponse)
    /\ handleDocIn (Docs_In doc) (mergeSchemas cs1 (componentStore s))
       = Ok (cs2, requestBody)
    /\ componentStore s' = mergeSchemas cs2 (mergeSchemas cs1 (componentStore s))
    /\ Paths (openapi s')
       = <[strings_ReplaceAll pattern "{$}" "" :=
             SetMethod (default emptyPathItem (Paths (openapi s) !! pattern))
               method op]> (Paths (openapi s))
    /\ patternMap s'
       = <[strings_ReplaceAll pattern "{$}" "" := pattern]> (patternMap s)
    /\ mux s' = mux s /\ handleStatus s' = handleStatus s /\ once s' = once s.
Proof.
  unfold registerDocs, componentStore. intros H.
  inv_bind H. destruct a as [cs1 routeResponse].
  inv_bind H. destruct a as [cs2 requestBody].
  inversion H; subst; clear H. simpl.
  eexists cs1, routeResponse, cs2, requestBody, _.
  repeat split; eauto.
Qed.





(** ** Middleware composition *)

Lemma wrapFrom_take (ms : list Middleware) (n : nat) (handler : Handler) :
  (n <= length ms)%nat -> wrapFrom ms n handler = wrapAll (take n ms) handler.
Proof.
  revert handler. induction n as [|i IH]; intros handler Hn; cbn [wrapFrom].
  - done.
  - lazymatch goal with
    | |- match ?x with _ => _ end = _ => destruct x as [m|] eqn:Hm
    end.
    + rewrite IH by lia.
      rewrite (take_S_r ms i m Hm). unfold wrapAll.
      by rewrite fold_right_app.
    + apply lookup_ge_None in Hm. lia.
Qed.

Lemma wrapFrom_wrapAll (ms : list Middleware) (handler : Handler) :
  wrapFrom ms (length ms) handler = wrapAll ms handler.
Proof. by rewrite wrapFrom_take, firstn_all. Qed.

Lemma wrapAll_app (ms ms' : list Middleware) (handler : Handler) :
  wrapAll (ms ++ ms') handler = wrapAll ms (wrapAll ms' handler).
Proof. unfold wrapAll. by rewrite fold_right_app. Qed.

Lemma middlewares_Use (r : Router) (added : list Middleware) :
  middlewares (fold_left Use added r) = (middlewares r ++ added)%list.
Proof.
  revert r. induction added as [|m added IH]; intros r; simpl.
  - by rewrite app_nil_r.
  - rewrite IH. simpl. by rewrite <- app_assoc.
Qed.

Lemma wrapAll_bracket (l : list (Handler * Handler)) (handler : Handler)
    (W : Type) (RW : ResponseWriter W) (req : Request) (w : W) :
  wrapAll (map (fun ba => bracket ba.1 ba.2) l) handler W RW req w
  = runAll (rev l.*2) W RW req (handler W RW req (runAll l.*1 W RW req w)).
Proof.
  revert w. induction l as [|[b a] l IH]; intros w; simpl; [done|].
  unfold bracket at 1. fold (wrapAll (map (fun ba => bracket ba.1 ba.2) l) handler).
  rewrite IH. unfold runAll. by rewrite fold_left_app.
Qed.

(** C2.  The handler handed to the multiplexer for a route, by
    [registerRoute] and so by every registration through [handle] that
    returns, is the node's middleware list folded around the raw handler,
    first-added outermost.
    The list of a group is the parent's list followed by what the group adds
    itself, so the handler of a route of the group is the parent's
    middlewares around the group's around the raw handler.  For middlewares
    that act before and after the handler they wrap, the "before" parts run
    in the order the middlewares were added and the "after" parts in the
    opposite order. *)
Theorem middleware_composition
    (r : Router) (basePath' : string) (added : list Middleware)
    (method pattern : string) (handler : Handler) (s : Root) :
  registerRoute r method pattern handler s
  = mux_Handle s (method +:+ " " +:+ pattern) (wrapAll (middlewares r) handler)
  /\ middlewares (fold_left Use added (subRouter r basePath'))
     = (middlewares r ++ added)%list
  /\ Group r basePath'
       (fun child => registerRoute (fold_left Use added child) method pattern handler) s
     = mux_Handle s (method +:+ " " +:+ pattern)
         (wrapAll (middlewares r) (wrapAll added handler))
  /\ (forall docs : list Docs,
        match handle r method pattern handler docs s with
        | Ok s' =>
            mux s'
            = (mux s ++ [(method +:+ " " +:+ fullPattern r pattern,
                          wrapAll (middlewares r) handler)])%list
        | Panic _ => True
        end)
  /\ forall (l : list (Handler * Handler)) (W : Type) (RW : ResponseWriter W)
            (req : Request) (w : W),
       wrapAll (map (fun ba => bracket ba.1 ba.2) l) handler W RW req w
       = runAll (rev l.*2) W RW req (handler W RW req (runAll l.*1 W RW req w)).
Proof.
  split; [|split; [|split; [|split]]].
  - unfold registerRoute. by rewrite wrapFrom_wrapAll.
  - by rewrite middlewares_Use.
  - unfold Group, registerRoute.
    by rewrite wrapFrom_wrapAll, middlewares_Use, wrapAll_app.
  - intros docs. unfold handle.
    assert (mux (registerRoute r method (fullPattern r pattern) handler s)
            = (mux s ++ [(method +:+ " " +:+ fullPattern r pattern,
                          wrapAll (middlewares r) handler)])%list) as Hmux.
    { unfold registerRoute. by rewrite wrapFrom_wrapAll. }
    destruct (openapiDocs r); [|done].
    destruct docs as [|doc docs]; [done|].
    destruct (registerDocs _ _ _ _ _) as [s'|msg] eqn:E; [|done].
    apply registerDocs_Ok in E
      as (_ & _ & _ & _ & _ & _ & _ & _ & _ & _ & -> & _).
    done.
  - intros. apply wrapAll_bracket.
Qed.

(** C9, at a failing input.  For a request-body sample of type
    [Account struct { ID string `json:"id"`; Age int }] the input path
    registers the properties [ID: string] and [Age: int] (field names, and
    the names of the fields' Go types), whereas the output path, and with it
    the input translation as specified, derives [id: string] and
    [Age: integer] (the json alias, and the schema type of the field's
    kind). *)
Theorem handleDocIn_differs_from_handleDocOut :
  let sample := reflect.val Account false in
  let inDecl :=
    Some {[ "application/json" :=
              {| DocIn_Object := sample; DocIn_Required := false |} ]} in
  let outDecl :=
    Some {[ "200" := {| ApplicationType := "application/json";
                        DocOut_Description := "";
                        DocOut_Object := sample |} ]} in
  derived (handleDocIn inDecl ∅)
  = Some {[ "Account" :=
              mkSchema "" "object" ""
                {[ "ID" := Schema_ofType "string";
                   "Age" := Schema_ofType "int" ]} None [] ]}
  /\ derived (handleDocOut outDecl ∅)
     = Some {[ "Account" :=
                 mkSchema "" "object" ""
                   {[ "id" := Schema_ofType "string";
                      "Age" := Schema_ofType "integer" ]} None [] ]}
  /\ derived (handleDocIn_spec inDecl ∅) = derived (handleDocOut outDecl ∅)
  /\ derived (handleDocIn inDecl ∅) <> derived (handleDocIn_spec inDecl ∅).
Proof.
  repeat split; try (vm_compute; reflexivity).
  vm_compute. discriminate.
Qed.

(** What the translation of response samples does do.  Every kind of field
    other than the ones named in the switch is given the type string. *)
Lemma kindTypeName_cases (k : reflect.Kind) :
  kindTypeName k
  = match k with
    | reflect.Int | reflect.Int8 | reflect.Int16 | reflect.Int32
    | reflect.Int64 => "integer"
    | reflect.Float32 | reflect.Float64 => "number"
    | reflect.Bool => "boolean"
    | reflect.Struct => "object"
    | reflect.Slice | reflect.Array => "array"
    | _ => "string"
    end.
Proof. by destruct k. Qed.




(** C6, at failing inputs.  A response sample that is not a struct, here
    the string ["hello"], makes the registration of the route panic: after
    the name check the translation asks the value for its number of fields.
    So does a request-body entry whose sample object is nil, which the input
    path, unlike the output path, does not guard. *)
Theorem registration_panics_on_unsupported_sample :
  Get_ docsRouter "/greeting" (statusHandler 200)
    [docsOut "200" (reflect.val stringType false)] exampleRoot
  = Panic "reflect: call of reflect.Value.NumField on non-struct Value"
  /\ Post_ docsRouter "/users" (statusHandler 200)
       [docsIn reflect.nil] exampleRoot
     = Panic "reflect: call of reflect.Value.Type on zero Value"
  /\ is_Ok (Get_ docsRouter "/home" (statusHandler 200)
              [docsOut "200" reflect.nil] exampleRoot) = true.
Proof. repeat split; vm_compute; reflexivity. Qed.

(** What registration does for a pattern without the marker: the operation
    is added to the descriptor found under the pattern, and no other
    descriptor changes. *)
Lemma registerDocs_accumulates r method pattern doc docs s s' :
  strings_ReplaceAll pattern "{$}" "" = pattern ->
  registerDocs r method pattern (doc :: docs) s = Ok s' ->
  (exists op,
     Paths (openapi s') !! pattern
     = Some (SetMethod (default emptyPathItem (Paths (openapi s) !! pattern))
               method op))
  /\ forall q, q <> pattern -> Paths (openapi s') !! q = Paths (openapi s) !! q.
Proof.
  intros Hstrip H. apply registerDocs_Ok in H
    as (cs1 & rr & cs2 & rb & op & _ & _ & _ & -> & _).
  rewrite Hstrip. split.
  - exists op. apply lookup_insert_eq.
  - intros q Hq. by apply lookup_insert_ne.
Qed.

Lemma SetMethod_other (item : PathItem) (op : Operation) :
  Get (SetMethod item "POST" op) = Get item
  /\ Post (SetMethod item "GET" op) = Post item.
Proof. done. Qed.

(** C3, at a failing input.  [Get("/{$}", ...)] followed by
    [Post("/{$}", ...)], both with a declaration: the descriptor is read
    under the pattern ["/{$}"], where nothing is ever stored, and written
    under the stripped path ["/"], so the second registration replaces the
    descriptor of the first and the GET operation is gone.  The same two
    registrations on ["/home"] accumulate. *)
Theorem exact_match_marker_drops_operations :
  let s1 := getOk exampleRoot
              (Get_ docsRouter "/{$}" (statusHandler 200) [noDocs] exampleRoot) in
  let s2 := getOk exampleRoot
              (Post_ docsRouter "/{$}" (statusHandler 200) [noDocs] s1) in
  let t1 := getOk exampleRoot
              (Get_ docsRouter "/home" (statusHandler 200) [noDocs] exampleRoot) in
  let t2 := getOk exampleRoot
              (Post_ docsRouter "/home" (statusHandler 200) [noDocs] t1) in
  Methods <$> Paths (openapi s1) !! "/" = Some ["GET"]
  /\ Methods <$> Paths (openapi s2) !! "/" = Some ["POST"]
  /\ Paths (openapi s2) !! "/{$}" = None
  /\ (mux s2).*1 = ["GET /{$}"; "POST /{$}"]
  /\ Methods <$> Paths (openapi t2) !! "/home" = Some ["GET"; "POST"].
Proof. repeat split; vm_compute; reflexivity. Qed.

(** ** Discovery handlers *)

(** The methods of a descriptor are those of GET, POST, PUT, DELETE and
    PATCH that carry an operation, in this order. *)
Lemma Methods_eq (item : PathItem) :
  Methods item
  = ((if Get item is Some _ then ["GET"] else [])
     ++ (if Post item is Some _ then ["POST"] else [])
     ++ (if Put item is Some _ then ["PUT"] else [])
     ++ (if Delete item is Some _ then ["DELETE"] else [])
     ++ (if Patch item is Some _ then ["PATCH"] else []))%list.
Proof.
  destruct item as [[g|] [po|] [pu|] [d|] [pa|]]; reflexivity.
Qed.


Lemma elem_of_if_Some {A : Type} (o : option A) (x m : string) :
  m ∈ (if o is Some _ then [x] else []) <-> m = x /\ o <> None.
Proof.
  destruct o; rewrite ?list_elem_of_singleton, ?elem_of_nil; intuition congruence.
Qed.

Lemma Methods_elem_of (item : PathItem) (m : string) :
  m ∈ Methods item
  <-> (m = "GET" /\ Get item <> None) \/ (m = "POST" /\ Post item <> None)
      \/ (m = "PUT" /\ Put item <> None) \/ (m = "DELETE" /\ Delete item <> None)
      \/ (m = "PATCH" /\ Patch item <> None).
Proof. rewrite Methods_eq, !elem_of_app, !elem_of_if_Some. tauto. Qed.

Lemma addIfMissing_Options (item : PathItem) :
  addIfMissing (Methods item) MethodOptions true = MethodOptions :: Methods item.
Proof.
  rewrite Methods_eq.
  destruct item as [[g|] [po|] [pu|] [d|] [pa|]]; reflexivity.
Qed.


Lemma registerOptionsHandler_fields (q : string) (s : Root) :
  openapi (registerOptionsHandler q s) = openapi s
  /\ patternMap (registerOptionsHandler q s) = patternMap s
  /\ handleStatus (registerOptionsHandler q s) = handleStatus s
  /\ once (registerOptionsHandler q s) = once s
  /\ forall x, x ∈ mux s -> x ∈ mux (registerOptionsHandler q s).
Proof.
  unfold registerOptionsHandler.
  destruct (Paths (openapi s) !! default q (patternMap s !! q)) as [item|];
    [|done].
  destruct (length (Methods item) =? 0)%nat; [done|]. simpl.
  repeat split; try done. intros x Hx. apply elem_of_app. by left.
Qed.










(** ** Serving: the redirect and the 405 override *)

Section ServeFacts.
Context (net : NetHTTP) {W : Type} `{RW : ResponseWriter W}.





End ServeFacts.





(** C10, at a failing input.  With the redirect on, a request whose URL path
    is empty (the request line [CONNECT host:port], or an absolute URL
    without a path) is neither redirected nor dispatched: the condition
    indexes the last character of the path before anything has established
    that there is one, and [ServeHTTP] panics. *)
Theorem redirect_check_panics_on_empty_path
    (net : NetHTTP) (r : Router) (s : Root)
    (W : Type) (RW : ResponseWriter W) (w : W) (method : string) :
  ServeHTTP net (RedirectTrailingSlash r true) s w
    {| Method := method; URL_Path := "" |}
  = Panic "index out of range [-1]".
Proof. reflexivity. Qed.

(** * Further properties of the package *)

(** ** Patterns: base paths, normalisation, the strings functions *)

Lemma append_nil_r (s : string) : s +:+ "" = s.
Proof.
  induction s as [|c s IH]; [done|].
  change (String c (s +:+ "") = String c s). by f_equal.
Qed.

Lemma append_assoc (a b c : string) : (a +:+ b) +:+ c = a +:+ (b +:+ c).
Proof.
  induction a as [|x a IH]; [done|].
  change (String x ((a +:+ b) +:+ c) = String x (a +:+ (b +:+ c))). by f_equal.
Qed.

Lemma strings_HasPrefix_nil (s : string) : strings_HasPrefix s "" = true.
Proof. by destruct s. Qed.

Lemma strings_HasPrefix_char (c d : ascii) (rest : string) :
  strings_HasPrefix (String c rest) (String d "") = Ascii.eqb d c.
Proof.
  change (strings_HasPrefix (String c rest) (String d ""))
    with (if Ascii.eqb d c then strings_HasPrefix rest "" else false).
  rewrite strings_HasPrefix_nil. by destruct (Ascii.eqb d c).
Qed.


Lemma middlewares_nest (r : Router) (subPaths : list string) :
  middlewares (nest r subPaths) = middlewares r
  /\ openapiDocs (nest r subPaths) = openapiDocs r
  /\ redirectTrailingSlash (nest r subPaths) = redirectTrailingSlash r.
Proof.
  unfold nest. revert r. induction subPaths as [|p ps IH]; intros r; simpl.
  - done.
  - destruct (IH (subRouter r p)) as (-> & -> & ->). done.
Qed.




Lemma append_cons (c : ascii) (s : string) : String c "" +:+ s = String c s.
Proof. done. Qed.

Lemma occurs_append (c : ascii) (a b : string) :
  occurs c (a +:+ b) = occurs c a || occurs c b.
Proof.
  induction a as [|x a IH]; [done|].
  change (occurs c (String x (a +:+ b)) = occurs c (String x a) || occurs c b).
  cbn [occurs]. by rewrite IH, orb_assoc.
Qed.

Lemma splitFrom_piece (c : ascii) (x cur r : string) :
  occurs c x = false ->
  splitFrom (String c "") 0 cur (x +:+ String c r)
  = (cur +:+ x) :: splitFrom (String c "") 0 "" r.
Proof.
  revert cur. induction x as [|d x IH]; intros cur Hx.
  - change ("" +:+ String c r) with (String c r). cbn [splitFrom].
    rewrite strings_HasPrefix_char, Ascii.eqb_refl. by rewrite append_nil_r.
  - change (String d x +:+ String c r) with (String d (x +:+ String c r)).
    cbn [occurs] in Hx. apply orb_false_iff in Hx as [Hd Hx].
    cbn [splitFrom]. rewrite strings_HasPrefix_char, Ascii.eqb_sym, Hd.
    rewrite IH by done. by rewrite append_assoc.
Qed.

Lemma splitFrom_last (c : ascii) (x cur : string) :
  occurs c x = false ->
  splitFrom (String c "") 0 cur x = [cur +:+ x].
Proof.
  revert cur. induction x as [|d x IH]; intros cur Hx.
  - by rewrite append_nil_r.
  - cbn [occurs] in Hx. apply orb_false_iff in Hx as [Hd Hx].
    cbn [splitFrom]. rewrite strings_HasPrefix_char, Ascii.eqb_sym, Hd.
    rewrite IH by done. by rewrite append_assoc.
Qed.

Lemma strings_Join_cons (x y : string) (l : list string) (sep : string) :
  strings_Join (x :: y :: l) sep = x +:+ sep +:+ strings_Join (y :: l) sep.
Proof. done. Qed.

Lemma Join_splitFrom (c : ascii) (cur s : string) :
  strings_Join (splitFrom (String c "") 0 cur s) (String c "") = cur +:+ s.
Proof.
  revert cur. induction s as [|d s IH]; intros cur;
    [cbn; by rewrite append_nil_r|].
  cbn [splitFrom]. rewrite strings_HasPrefix_char.
  destruct (Ascii.eqb_spec c d) as [<-|Hne].
  - cbn [String.length Nat.sub].
    pose proof (splitFrom_not_nil (String c "") 0 "" s) as Hne.
    specialize (IH "").
    destruct (splitFrom (String c "") 0 "" s) as [|y l]; [done|].
    by rewrite strings_Join_cons, IH, append_cons.
  - rewrite IH, append_assoc. done.
Qed.

Lemma Split_of_Join (c : ascii) (l : list string) :
  l <> [] -> Forall (fun x => occurs c x = false) l ->
  strings_Split (strings_Join l (String c "")) (String c "") = l.
Proof.
  unfold strings_Split. intros Hne Hall.
  induction Hall as [|x l Hx Hall IH]; [done|].
  destruct l as [|y l].
  - cbn [strings_Join]. by rewrite splitFrom_last.
  - rewrite strings_Join_cons, append_cons, splitFrom_piece by done.
    by rewrite IH.
Qed.

(** [strings.Split] and [strings.Join], as the router uses them with a
    one-character separator, undo each other: joining the pieces of any
    string gives the string back, and splitting the join of a non-empty list
    of pieces that do not contain the separator gives the pieces back. *)
Theorem Split_Join_inverse (c : ascii) (s : string) (l : list string) :
  strings_Join (strings_Split s (String c "")) (String c "") = s
  /\ (l <> [] -> Forall (fun x => occurs c x = false) l ->
      strings_Split (strings_Join l (String c "")) (String c "") = l).
Proof. split; [apply Join_splitFrom|apply Split_of_Join]. Qed.

Lemma Split_Join_inverse_witness :
  strings_Split (strings_Join ["users"; "{id}"; ""] "/") "/"
  = ["users"; "{id}"; ""].
Proof.
  apply (Split_Join_inverse "/" "" ["users"; "{id}"; ""]).
  - discriminate.
  - repeat constructor.
Defined.

Lemma strings_HasPrefix_occurs (c : ascii) (s old : string) :
  strings_HasPrefix s old = true -> occurs c old = true -> occurs c s = true.
Proof.
  revert s. induction old as [|o old IH]; intros s Hp Hc; [done|].
  destruct s as [|d s]; [done|].
  change (strings_HasPrefix (String d s) (String o old))
    with (if Ascii.eqb o d then strings_HasPrefix s old else false) in Hp.
  destruct (Ascii.eqb_spec o d) as [->|]; [|discriminate].
  cbn [occurs] in *. apply orb_true_iff in Hc as [Hc|Hc].
  - by rewrite Hc.
  - rewrite (IH s Hp Hc). apply orb_true_r.
Qed.

Lemma replaceFrom_absent (c : ascii) (s old new : string) :
  occurs c old = true ->
  occurs c s = false ->
  replaceFrom old new 0 s = s.
Proof.
  intros Hold.
  induction s as [|d s IH]; intros Hs; [done|].
  cbn [replaceFrom].
  destruct (strings_HasPrefix (String d s) old) eqn:Hp.
  - pose proof (strings_HasPrefix_occurs c _ _ Hp Hold). congruence.
  - cbn [occurs] in Hs. apply orb_false_iff in Hs as [_ Hs].
    by rewrite IH.
Qed.

(** [strings.ReplaceAll] leaves a string alone in which some character
    of the text to replace does not occur.  In particular a pattern without
    a dollar sign, placeholders included, is its own documentation path. *)
Theorem ReplaceAll_absent (c : ascii) (s old new : string) :
  occurs c old = true ->
  occurs c s = false ->
  strings_ReplaceAll s old new = s.
Proof. apply replaceFrom_absent. Qed.

Lemma ReplaceAll_absent_witness :
  strings_ReplaceAll "/users/{id}" "{$}" "" = "/users/{id}".
Proof. apply (ReplaceAll_absent "$"); reflexivity. Defined.

Lemma strings_Join_empty_sep (l : list string) :
  strings_Join l "" = concatAll l.
Proof.
  induction l as [|x l IH]; [done|].
  destruct l as [|y l].
  - cbn. by rewrite append_nil_r.
  - rewrite strings_Join_cons, IH. done.
Qed.

(** X2.  The operation id of a path made of segments separated by slashes
    is the concatenation, segment by segment, of the segment with leading
    opening braces and trailing closing braces removed and the first letter
    of each word in upper case; empty segments contribute nothing. *)
Theorem OperationID_segments (segments : list string) :
  segments <> [] ->
  Forall (fun x => occurs "/" x = false) segments ->
  strings_Join segments "/" <> "" ->
  OperationID ("/" +:+ strings_Join segments "/")
  = concatAll (map operationSegment segments).
Proof.
  intros Hne Hall Hjoin. unfold OperationID.
  assert (String.eqb ("/" +:+ strings_Join segments "/") ""
          || String.eqb ("/" +:+ strings_Join segments "/") "/" = false) as ->.
  { rewrite append_cons. cbn.
    destruct (strings_Join segments "/") as [|x rest]; [done|]. done. }
  assert ("/" +:+ strings_Join segments "/"
          = strings_Join ("" :: segments) "/") as ->.
  { destruct segments as [|x l]; [done|]. by rewrite strings_Join_cons. }
  rewrite (Split_of_Join "/" ("" :: segments)); [|done|by constructor].
  rewrite strings_Join_empty_sep. reflexivity.
Qed.

Lemma OperationID_segments_witness :
  OperationID "/users/{id}/blog-posts" = "UsersIdBlog-Posts".
Proof.
  apply (OperationID_segments ["users"; "{id}"; "blog-posts"]).
  - discriminate.
  - repeat constructor.
  - discriminate.
Defined.

(** ** The writers: erasing, escaping, passing through, intercepting *)

#[export] Instance Recorder_HeaderLaws : HeaderLaws Recorder.
Proof. by split. Qed.

Section LawfulWriter.
Context {W : Type} `{HL : HeaderLaws W}.

Lemma Header_delExcluded (headers : list string) (w : W) :
  Header (delExcluded headers w)
  = fold_left (fun h k => Header_Del h k) headers (Header w).
Proof.
  unfold delExcluded. revert w.
  induction headers as [|k headers IH]; intros w; simpl; [done|].
  by rewrite IH, Header_SetHeader.
Qed.

Lemma fold_delete_lookup (headers : list string) (h : header) (k : string) :
  fold_left (fun h k => Header_Del h k) headers h !! k
  = if bool_decide (k ∈ headers) then None else h !! k.
Proof.
  revert h. induction headers as [|x headers IH]; intros h; simpl; [done|].
  rewrite IH. unfold Header_Del.
  destruct (decide (x = k)) as [->|Hne].
  - rewrite lookup_delete_eq.
    rewrite (bool_decide_eq_true_2 (k ∈ k :: headers)) by left.
    by destruct (bool_decide (k ∈ headers)).
  - rewrite lookup_delete_ne by done.
    destruct (decide (k ∈ headers)) as [Hin|Hnin].
    + rewrite !bool_decide_eq_true_2; [done|by right|done].
    + rewrite !bool_decide_eq_false_2; [done| |done].
      intros Hin. apply elem_of_cons in Hin as [->|Hin]; done.
Qed.

(** X3.  [WriteHeader] on the eraser forwards the status code to the writer
    it wraps after deleting the excluded headers from the header map: in the
    headers that reach the inner writer the excluded keys are absent and
    every other key has the value it had. *)
Theorem eraser_deletes_excluded_headers
    (w : excludeHeaderWriter W) (code : Z) (k : string) :
  ew_ResponseWriter (WriteHeader code w)
  = WriteHeader code (delExcluded (excludedHeaders w) (ew_ResponseWriter w))
  /\ Header (WriteHeader code w) !! k
     = (if bool_decide (k ∈ excludedHeaders w) then None else Header w !! k)
  /\ excludedHeaders (WriteHeader code w) = excludedHeaders w.
Proof.
  split; [done|]. split; [|done].
  cbn. by rewrite Header_WriteHeader, Header_delExcluded, fold_delete_lookup.
Qed.
End LawfulWriter.

Lemma eraser_deletes_excluded_headers_witness :
  let w := eraser {| rec_header := {[ "do_not_intercept" := ["1"];
                                      "Content-Type" := ["text/html"] ]};
                     rec_calls := [] |} in
  Header (WriteHeader 404 w) !! "do_not_intercept" = None
  /\ Header (WriteHeader 404 w) !! "Content-Type" = Some ["text/html"]
  /\ rec_calls (ew_ResponseWriter (WriteHeader 404 w)) = [CallWriteHeader 404].
Proof.
  intros w.
  pose proof (eraser_deletes_excluded_headers (W := Recorder) w 404) as H.
  split; [|split].
  - destruct (H "do_not_intercept") as (_ & -> & _). reflexivity.
  - destruct (H "Content-Type") as (_ & -> & _). reflexivity.
  - destruct (H "") as (-> & _). reflexivity.
Defined.

(** X4.  The decision of [WriteHeader] does not depend on the order in which
    the iteration visits the entries of [interceptMap]: for every ordering
    of the entries the loop intercepts exactly when the predicate stored
    under the status code holds. *)
Theorem intercept_decision_order_independent
    (W : Type) (RW : ResponseWriter W) (m : gmap Z (W -> bool))
    (entries : list (Z * (W -> bool))) (code : Z) (inner : W) :
  entries ≡ₚ map_to_list m ->
  rangeInterceptMap entries code inner
  = match m !! code with
    | Some fn => fn inner
    | None => false
    end.
Proof.
  intros Hperm.
  destruct (rangeInterceptMap entries code inner) eqn:E.
  - apply rangeInterceptMap_true in E as (fn & Hin & Hfn).
    rewrite Hperm in Hin. apply elem_of_map_to_list in Hin. by rewrite Hin.
  - destruct (m !! code) as [fn|] eqn:Hl; [|done].
    destruct (fn inner) eqn:Hfn; [|done].
    assert (rangeInterceptMap entries code inner = true) as Ht.
    { apply rangeInterceptMap_true. exists fn. split; [|done].
      rewrite Hperm. by apply elem_of_map_to_list. }
    congruence.
Qed.

Lemma intercept_decision_order_independent_witness :
  rangeInterceptMap
    [(500, fun _ : Recorder => true); (404, fun _ : Recorder => true)]
    404 newRecorder = true.
Proof.
  rewrite (intercept_decision_order_independent Recorder _
             {[ 404 := fun _ : Recorder => true;
                500 := fun _ : Recorder => true ]}).
  - reflexivity.
  - rewrite map_to_list_insert by reflexivity.
    rewrite map_to_list_singleton. apply Permutation_swap.
Defined.

Section Interceptor.
Context {W : Type} `{RW : ResponseWriter W}.

Lemma matches_newInterceptor (s : Root) (w : W) (code : Z) :
  matches (newInterceptor s w) code
  = match handleStatus s !! code with
    | Some v => interceptFn v (eraser w)
    | None => false
    end.
Proof.
  unfold matches. cbn. rewrite lookup_fmap.
  by destruct (handleStatus s !! code).
Qed.


Lemma runOps_cons (o : op) (ops : list op) {V : Type} `{RV : ResponseWriter V}
    (v : V) :
  runOps (o :: ops) v = runOps ops (runOp o v).
Proof. done. Qed.

Lemma runOps_app (ops ops' : list op) {V : Type} `{RV : ResponseWriter V}
    (v : V) :
  runOps (ops ++ ops') v = runOps ops' (runOps ops v).
Proof. apply fold_left_app. Qed.




Lemma ServeHTTP_state (net : NetHTTP) (r : Router) (s s' : Root)
    (w w' : W) (req : Request) :
  ServeHTTP net r s w req = Ok (s', w') -> s' = onceDo r s.
Proof.
  unfold ServeHTTP. intros H. inv_bind H. destruct a; [congruence|].
  inv_bind H. congruence.
Qed.
End Interceptor.



(** X6.  The escape flag.  If the response carries the header
    [do_not_intercept] when [WriteHeader] is called on the interceptor that
    [ServeHTTP] builds, the call is forwarded whatever handlers are
    registered: the interceptor does not enter the intercepted state, the
    inner writer receives the status code, the flag is deleted from the
    header map before it does, and no override is invoked afterwards. *)
Theorem escape_flag_bypasses_interception
    (W : Type) (RW : ResponseWriter W) (HL : HeaderLaws W)
    (s : Root) (w : W) (req : Request) (code : Z) :
  Header_Get (Header w) HeaderFlagDoNotIntercept <> "" ->
  intercepted (WriteHeader code (newInterceptor s w)) = false
  /\ statusCode (WriteHeader code (newInterceptor s w)) = code
  /\ ew_ResponseWriter
       (iw_ResponseWriter (WriteHeader code (newInterceptor s w)))
     = WriteHeader code
         (SetHeader (Header_Del (Header w) HeaderFlagDoNotIntercept) w)
  /\ Header (WriteHeader code (newInterceptor s w))
       !! HeaderFlagDoNotIntercept = None
  /\ afterDispatch s req (WriteHeader code (newInterceptor s w))
     = Ok (iw_ResponseWriter (WriteHeader code (newInterceptor s w))).
Proof.
  intros Hflag.
  assert (WriteHeader code (newInterceptor s w)
          = {| iw_ResponseWriter := WriteHeader code (eraser w);
               interceptMap := interceptMap (newInterceptor s w);
               statusCode := code;
               intercepted := false |}) as ->.
  { cbn [WriteHeader routingStatusInterceptWriter_RW].
    unfold routingStatusInterceptWriter_WriteHeader.
    rewrite rangeInterceptMap_matches, matches_newInterceptor.
    cbn [intercepted newInterceptor].
    destruct (handleStatus s !! code) as [v|]; [|done].
    unfold interceptFn. cbn [Header excludeHeaderWriter_RW eraser ew_ResponseWriter].
    destruct (String.eqb_spec (Header_Get (Header w) HeaderFlagDoNotIntercept) "");
      [done|]. by rewrite andb_false_r. }
  cbn [intercepted statusCode iw_ResponseWriter].
  split; [done|]. split; [done|]. split; [done|]. split; [|done].
  cbn. rewrite Header_WriteHeader, Header_SetHeader.
  apply lookup_delete_eq.
Qed.

Lemma escape_flag_bypasses_interception_witness :
  let w := {| rec_header := {[ "do_not_intercept" := ["1"] ]};
              rec_calls := [] |} in
  let s := HandleStatus 404 (Some (statusHandler 404)) exampleRoot in
  intercepted (WriteHeader 404 (newInterceptor s w)) = false
  /\ rec_calls (ew_ResponseWriter
                  (iw_ResponseWriter (WriteHeader 404 (newInterceptor s w))))
     = [CallWriteHeader 404].
Proof.
  intros w s.
  destruct (escape_flag_bypasses_interception Recorder _ _ s w
              {| Method := MethodGet; URL_Path := "/file" |} 404)
    as (H1 & _ & H3 & _).
  - vm_compute. discriminate.
  - split; [exact H1|]. rewrite H3. reflexivity.
Defined.



(** ** Discovery handlers: once, and only for what the document holds *)

Lemma handle_Ok (r : Router) (method pattern : string) (handler : Handler)
    (docs : list Docs) (s s' : Root) :
  handle r method pattern handler docs s = Ok s' ->
  mux s' = (mux s ++ [(method +:+ " " +:+ fullPattern r pattern,
                       wrapAll (middlewares r) handler)])%list
  /\ once s' = once s /\ handleStatus s' = handleStatus s.
Proof.
  unfold handle. intros H.
  assert (mux (registerRoute r method (fullPattern r pattern) handler s)
          = (mux s ++ [(method +:+ " " +:+ fullPattern r pattern,
                        wrapAll (middlewares r) handler)])%list) as Hmux.
  { unfold registerRoute. by rewrite wrapFrom_wrapAll. }
  destruct (openapiDocs r); [|by inversion H; subst].
  destruct docs as [|doc docs]; [by inversion H; subst|].
  apply registerDocs_Ok in H
    as (_ & _ & _ & _ & _ & _ & _ & _ & _ & _ & -> & -> & ->).
  done.
Qed.

Lemma onceDo_idempotent (r : Router) (s : Root) :
  onceDo r (onceDo r s) = onceDo r s.
Proof.
  unfold onceDo. destruct (openapiDocs r); [|done].
  destruct (once s) eqn:E; [by rewrite E|]. done.
Qed.

(** X8.  The discovery handlers are synthesised at most once.  Whatever
    the first served request is, the state it leaves is not changed by
    serving further requests, and a route registered after the first request
    adds exactly its own registration to the multiplexer: it never gets a
    discovery handler. *)
Theorem discovery_synthesis_runs_once
    (net : NetHTTP) (r r2 : Router) (s s1 s2 s3 : Root)
    (W : Type) (RW : ResponseWriter W) (w w1 w2 w3 : W) (req req2 : Request)
    (method pattern : string) (handler : Handler) (docs : list Docs) :
  ServeHTTP net r s w req = Ok (s1, w1) ->
  handle r2 method pattern handler docs s1 = Ok s2 ->
  ServeHTTP net r s2 w2 req2 = Ok (s3, w3) ->
  (openapiDocs r = true -> once s1 = true)
  /\ (forall w' req' s' w'',
        ServeHTTP net r s1 w' req' = Ok (s', w'') -> s' = s1)
  /\ s3 = s2
  /\ mux s3 = (mux s1 ++ [(method +:+ " " +:+ fullPattern r2 pattern,
                           wrapAll (middlewares r2) handler)])%list.
Proof.
  intros H1 H2 H3.
  apply ServeHTTP_state in H1. apply ServeHTTP_state in H3.
  apply handle_Ok in H2 as (Hmux & Honce & _).
  assert (openapiDocs r = true -> once s1 = true) as Hdone.
  { intros Hd. subst s1. unfold onceDo. rewrite Hd.
    by destruct (once s) eqn:E. }
  assert (forall t, (openapiDocs r = true -> once t = true) -> onceDo r t = t)
    as Hfix.
  { intros t Ht. unfold onceDo. destruct (openapiDocs r); [|done].
    by rewrite Ht. }
  split; [done|]. split; [|split].
  - intros w' req' s' w'' H. apply ServeHTTP_state in H. subst s'.
    by apply Hfix.
  - subst s3. apply Hfix. intros Hd. rewrite Honce. by apply Hdone.
  - subst s3. rewrite Hfix; [done|]. intros Hd. rewrite Honce. by apply Hdone.
Qed.

Lemma discovery_synthesis_runs_once_witness :
  let req := {| Method := MethodGet; URL_Path := "/x" |} in
  let s1 := (getOk (exampleRoot, newRecorder)
               (ServeHTTP literalNet docsRouter getHeadRoot newRecorder req)).1 in
  let s2 := getOk exampleRoot
              (Post_ docsRouter "/y" (statusHandler 200) [noDocs] s1) in
  (mux s2).*1 = ["GET /x"; "HEAD /x"; "OPTIONS /x"; "POST /y"]
  /\ (getOk (exampleRoot, newRecorder)
        (ServeHTTP literalNet docsRouter s2 newRecorder req)).1 = s2.
Proof.
  intros req s1 s2.
  split; [vm_compute; reflexivity|].
  destruct (ServeHTTP literalNet docsRouter s2 newRecorder req)
    as [[s3 w3]|msg] eqn:E3; [|vm_compute in E3; discriminate E3].
  destruct (ServeHTTP literalNet docsRouter getHeadRoot newRecorder req)
    as [[s1' w1]|msg] eqn:E1; [|vm_compute in E1; discriminate E1].
  assert (s1 = s1') as Hs1.
  { unfold s1. rewrite ?E1. reflexivity. }
  destruct (discovery_synthesis_runs_once literalNet docsRouter docsRouter
              getHeadRoot s1 s2 s3 Recorder _ newRecorder w1 newRecorder w3
              req req "POST" "/y" (statusHandler 200) [noDocs])
    as (_ & _ & Heq & _).
  - by rewrite Hs1.
  - vm_compute. reflexivity.
  - exact E3.
  - exact Heq.
Defined.

Lemma strings_HasPrefix_cons (c d : ascii) (s p : string) :
  strings_HasPrefix (String c s) (String d p)
  = (if Ascii.eqb d c then strings_HasPrefix s p else false).
Proof. done. Qed.

Lemma strings_HasPrefix_append (a b : string) :
  strings_HasPrefix (a +:+ b) a = true.
Proof.
  induction a as [|c a IH]; [apply strings_HasPrefix_nil|].
  change (String c a +:+ b) with (String c (a +:+ b)).
  by rewrite strings_HasPrefix_cons, Ascii.eqb_refl.
Qed.

Lemma omap_pointwise {A B : Type} (f g : A -> option B) (l : list A) :
  (forall x, f x = g x) -> omap f l = omap g l.
Proof.
  intros H. induction l as [|x l IH]; [done|]. cbn. by rewrite H, IH.
Qed.


Lemma registerOptionsHandler_entry (p : string) (s : Root) :
  mux (registerOptionsHandler p s)
  = (mux s ++ option_list (optionsEntry s p))%list.
Proof.
  unfold registerOptionsHandler, optionsEntry.
  destruct (Paths (openapi s) !! default p (patternMap s !! p)) as [item|];
    [|by rewrite app_nil_r].
  destruct (Methods item) as [|m ms] eqn:Hm; [by rewrite app_nil_r|].
  cbn [length Nat.eqb]. rewrite <- Hm, addIfMissing_Options. done.
Qed.

Lemma optionsEntry_ext (s s' : Root) (p : string) :
  openapi s' = openapi s -> patternMap s' = patternMap s ->
  optionsEntry s' p = optionsEntry s p.
Proof. unfold optionsEntry. by intros -> ->. Qed.

Lemma synthesize_entries (l : list string) (s : Root) :
  mux (fold_left (fun s p => registerOptionsHandler p s) l s)
  = (mux s ++ omap (optionsEntry s) l)%list.
Proof.
  revert s. induction l as [|p l IH]; intros s; simpl.
  - by rewrite app_nil_r.
  - rewrite IH, registerOptionsHandler_entry.
    destruct (registerOptionsHandler_fields p s) as (Ho & Hp & _).
    rewrite <- app_assoc. f_equal.
    assert (omap (optionsEntry (registerOptionsHandler p s)) l
            = omap (optionsEntry s) l) as ->.
    { apply omap_pointwise. intros q. by apply optionsEntry_ext. }
    by destruct (optionsEntry s p).
Qed.

Lemma optionsEntry_Some (s : Root) (p : string) (e : string * Handler) :
  optionsEntry s p = Some e ->
  exists pattern item,
    pattern = default p (patternMap s !! p)
    /\ Paths (openapi s) !! pattern = Some item
    /\ Methods item <> []
    /\ e = ("OPTIONS " +:+ pattern,
            optionsHandler (MethodOptions :: Methods item)).
Proof.
  unfold optionsEntry. intros H.
  destruct (Paths (openapi s) !! default p (patternMap s !! p)) as [item|] eqn:E;
    [|done].
  destruct (Methods item) as [|m ms] eqn:Hm; [done|].
  injection H as <-. eexists _, item. rewrite Hm. done.
Qed.


(** X10.  Where the document has no descriptor under a pattern, synthesis
    registers no discovery handler on that pattern: any handler the
    multiplexer then holds for [OPTIONS] on it was there before.  This is the
    case of a route registered with the exact-match marker, whose descriptor
    is stored under the stripped path. *)
Theorem no_descriptor_no_discovery_handler
    (s : Root) (pattern : string) (h : Handler) :
  Paths (openapi s) !! pattern = None ->
  ("OPTIONS " +:+ pattern, h) ∈ mux (synthesizeOptions s) ->
  ("OPTIONS " +:+ pattern, h) ∈ mux s.
Proof.
  intros Hnone Hin. unfold synthesizeOptions in Hin.
  rewrite synthesize_entries in Hin.
  apply elem_of_app in Hin as [Hin|Hin]; [done|].
  apply list_elem_of_omap in Hin as (p & _ & He).
  apply optionsEntry_Some in He as (pattern' & item & _ & Hitem & _ & Heq).
  injection Heq as Heq _.
  assert (pattern' = pattern) as -> by (by simplify_eq).
  congruence.
Qed.

Lemma no_descriptor_no_discovery_handler_witness :
  let s := getOk exampleRoot
             (Get_ docsRouter "/{$}" (statusHandler 200) [noDocs] exampleRoot) in
  ~ (("OPTIONS /{$}", optionsHandler ["OPTIONS"; "GET"])
     ∈ mux (synthesizeOptions s)).
Proof.
  intros s Hin.
  apply (no_descriptor_no_discovery_handler s "/{$}") in Hin.
  - vm_compute in Hin. apply elem_of_cons in Hin as [Hin|Hin]; [discriminate|].
    by apply elem_of_nil in Hin.
  - vm_compute. reflexivity.
Defined.

(** ** Descriptors and method lists *)

Lemma operationFor_Methods (item : PathItem) (m : string) :
  m ∈ Methods item <-> operationFor item m <> None.
Proof.
  rewrite Methods_elem_of. unfold operationFor.
  destruct (String.eqb_spec m "GET") as [->|?].
  { split; [intros [[_ ?]|[[? _]|[[? _]|[[? _]|[? _]]]]]; done|auto]. }
  destruct (String.eqb_spec m "POST") as [->|?].
  { split; [intros [[? _]|[[_ ?]|[[? _]|[[? _]|[? _]]]]]; done|auto]. }
  destruct (String.eqb_spec m "PUT") as [->|?].
  { split; [intros [[? _]|[[? _]|[[_ ?]|[[? _]|[? _]]]]]; done|auto]. }
  destruct (String.eqb_spec m "DELETE") as [->|?].
  { split; [intros [[? _]|[[? _]|[[? _]|[[_ ?]|[? _]]]]]; done|auto 6]. }
  destruct (String.eqb_spec m "PATCH") as [->|?].
  { split; [intros [[? _]|[[? _]|[[? _]|[[? _]|[_ ?]]]]]; done|auto 6]. }
  split; [intros [[? _]|[[? _]|[[? _]|[[? _]|[? _]]]]]; done|done].
Qed.

Lemma operationFor_SetMethod (item : PathItem) (m m' : string) (op : Operation) :
  operationFor (SetMethod item m op) m'
  = if bool_decide (m' = m /\ m ∈ descriptorMethods) then Some op
    else operationFor item m'.
Proof.
  unfold SetMethod, operationFor, descriptorMethods.
  destruct (String.eqb_spec m "GET") as [->|?];
    [|destruct (String.eqb_spec m "POST") as [->|?];
      [|destruct (String.eqb_spec m "PUT") as [->|?];
        [|destruct (String.eqb_spec m "DELETE") as [->|?];
          [|destruct (String.eqb_spec m "PATCH") as [->|?]]]]].
  1-5: destruct (String.eqb_spec m' "GET") as [->|?];
       [|destruct (String.eqb_spec m' "POST") as [->|?];
         [|destruct (String.eqb_spec m' "PUT") as [->|?];
           [|destruct (String.eqb_spec m' "DELETE") as [->|?];
             [|destruct (String.eqb_spec m' "PATCH") as [->|?]]]]];
       cbn; try reflexivity;
       rewrite bool_decide_eq_false_2; try reflexivity; intros [? _]; congruence.
  rewrite bool_decide_eq_false_2; [done|].
  intros [_ Hin]. rewrite !elem_of_cons, elem_of_nil in Hin.
  intuition congruence.
Qed.

(** X11.  [SetMethod] followed by a look at the descriptor.  Setting the
    operation of one of GET, POST, PUT, DELETE, PATCH makes it the operation
    of that method, whatever was there, and leaves the operations of the
    other methods alone; the list of methods gains the method and loses
    nothing.  Setting the operation of any other method, HEAD and OPTIONS
    among them, returns the descriptor unchanged. *)
Theorem SetMethod_then_lookup (item : PathItem) (m : string) (op : Operation) :
  (m ∈ descriptorMethods ->
     operationFor (SetMethod item m op) m = Some op
     /\ (forall m', m' <> m ->
           operationFor (SetMethod item m op) m' = operationFor item m')
     /\ (forall x, x ∈ Methods (SetMethod item m op) <-> x = m \/ x ∈ Methods item)
     /\ forall op', SetMethod (SetMethod item m op') m op = SetMethod item m op)
  /\ (m ∉ descriptorMethods -> SetMethod item m op = item).
Proof.
  split.
  - intros Hm. split; [|split; [|split]].
    + rewrite operationFor_SetMethod. by rewrite bool_decide_eq_true_2.
    + intros m' Hne. rewrite operationFor_SetMethod.
      rewrite bool_decide_eq_false_2; [done|]. by intros [? _].
    + intros x. rewrite !operationFor_Methods, operationFor_SetMethod.
      destruct (decide (x = m)) as [->|Hne].
      * rewrite bool_decide_eq_true_2 by done. split; [auto|done].
      * rewrite bool_decide_eq_false_2 by (by intros [? _]).
        split; [auto|]. by intros [?|?].
    + intros op'. unfold descriptorMethods in Hm.
      rewrite !elem_of_cons, elem_of_nil in Hm.
      destruct Hm as [->|[->|[->|[->|[->|[]]]]]]; reflexivity.
  - intros Hm. unfold SetMethod, descriptorMethods in *.
    rewrite !elem_of_cons, elem_of_nil in Hm.
    destruct (String.eqb_spec m "GET"); [tauto|].
    destruct (String.eqb_spec m "POST"); [tauto|].
    destruct (String.eqb_spec m "PUT"); [tauto|].
    destruct (String.eqb_spec m "DELETE"); [tauto|].
    destruct (String.eqb_spec m "PATCH"); [tauto|]. done.
Qed.

Lemma SetMethod_then_lookup_witness :
  Methods (SetMethod (SetMethod emptyPathItem "GET"
                        {| Operation_Tags := []; Operation_Summary := "a";
                           Operation_Description := ""; OperationID_ := "";
                           Operation_Parameters := [];
                           Operation_RequestBody := None;
                           Operation_Responses := ∅;
                           Operation_Security := [] |})
             "HEAD"
             {| Operation_Tags := []; Operation_Summary := "b";
                Operation_Description := ""; OperationID_ := "";
                Operation_Parameters := []; Operation_RequestBody := None;
                Operation_Responses := ∅; Operation_Security := [] |})
  = ["GET"].
Proof.
  destruct (SetMethod_then_lookup
              (SetMethod emptyPathItem "GET"
                 {| Operation_Tags := []; Operation_Summary := "a";
                    Operation_Description := ""; OperationID_ := "";
                    Operation_Parameters := [];
                    Operation_RequestBody := None;
                    Operation_Responses := ∅;
                    Operation_Security := [] |})
              "HEAD"
              {| Operation_Tags := []; Operation_Summary := "b";
                 Operation_Description := ""; OperationID_ := "";
                 Operation_Parameters := []; Operation_RequestBody := None;
                 Operation_Responses := ∅; Operation_Security := [] |})
    as [_ ->].
  - reflexivity.
  - vm_compute. intros H.
    repeat (apply elem_of_cons in H as [H|H]; [discriminate H|]).
    by apply elem_of_nil in H.
Defined.

Lemma slices_Contains_elem_of (slice : list string) (element : string) :
  slices_Contains slice element = true <-> element ∈ slice.
Proof.
  unfold slices_Contains. rewrite existsb_exists. split.
  - intros (x & Hin & Heq). apply String.eqb_eq in Heq as ->.
    by apply list_elem_of_In.
  - intros Hin. exists element. split; [by apply list_elem_of_In|].
    apply String.eqb_refl.
Qed.

(** X12.  [addIfMissing] adds an element to a slice as to a set: the result
    holds the element and what the slice held, nothing else; a slice without
    duplicates stays without duplicates; a slice that holds the element is
    returned as it is, so that adding twice is adding once; otherwise the
    element goes to the front or to the back as asked. *)
Theorem addIfMissing_set_insert
    (slice : list string) (element : string) (prepend prepend' : bool) :
  (forall x, x ∈ addIfMissing slice element prepend <-> x = element \/ x ∈ slice)
  /\ (NoDup slice -> NoDup (addIfMissing slice element prepend))
  /\ (element ∈ slice -> addIfMissing slice element prepend = slice)
  /\ (element ∉ slice ->
      addIfMissing slice element prepend
      = if prepend then element :: slice else (slice ++ [element])%list)
  /\ addIfMissing (addIfMissing slice element prepend) element prepend'
     = addIfMissing slice element prepend.
Proof.
  unfold addIfMissing.
  destruct (slices_Contains slice element) eqn:E.
  - apply slices_Contains_elem_of in E.
    split; [|split; [|split; [|split]]]; try done.
    + intros x. split; [auto|]. by intros [->|?].
    + by apply slices_Contains_elem_of in E as ->.
  - assert (element ∉ slice) as Hnin.
    { intros Hin. apply slices_Contains_elem_of in Hin. congruence. }
    split; [|split; [|split; [|split]]]; try done.
    + intros x. destruct prepend; cbn.
      * by rewrite elem_of_cons.
      * rewrite elem_of_app, list_elem_of_singleton. tauto.
    + intros Hnd. destruct prepend; cbn.
      * by apply NoDup_cons.
      * apply NoDup_app. split; [done|]. split; [|apply NoDup_singleton].
        intros x Hx Hx'. apply list_elem_of_singleton in Hx' as ->. done.
    + assert (slices_Contains
                (if prepend then ([element] ++ slice)%list
                 else (slice ++ [element])%list) element = true) as ->; [|done].
      apply slices_Contains_elem_of. destruct prepend; cbn.
      * left.
      * apply elem_of_app. right. left.
Qed.

Lemma addIfMissing_set_insert_witness :
  NoDup (addIfMissing ["GET"; "POST"] "OPTIONS" true)
  /\ addIfMissing ["GET"; "POST"] "POST" false = ["GET"; "POST"].
Proof.
  destruct (addIfMissing_set_insert ["GET"; "POST"] "OPTIONS" true true)
    as (_ & Hnd & _).
  destruct (addIfMissing_set_insert ["GET"; "POST"] "POST" false false)
    as (_ & _ & Heq & _).
  split.
  - apply Hnd. apply (bool_decide_unpack _). vm_compute. reflexivity.
  - apply Heq. right. left.
Defined.

(** ** Registering documentation *)

(** A successful [registerDocs] stores an operation built from the
    declaration. *)
Lemma registerDocs_operation r method pattern doc docs s s' :
  registerDocs r method pattern (doc :: docs) s = Ok s' ->
  exists op,
    Paths (openapi s')
    = <[strings_ReplaceAll pattern "{$}" "" :=
          SetMethod (default emptyPathItem (Paths (openapi s) !! pattern))
            method op]> (Paths (openapi s))
    /\ Operation_Summary op = Docs_Summary doc
    /\ Operation_Description op = Docs_Description doc
    /\ Operation_Tags op = Docs_Tags doc
    /\ Operation_Parameters op = Docs_Parameters doc
    /\ OperationID_ op
       = method +:+ OperationID (strings_ReplaceAll pattern "{$}" "").
Proof.
  unfold registerDocs. intros H.
  inv_bind H. destruct a as [cs1 routeResponse].
  inv_bind H. destruct a as [cs2 requestBody].
  inversion H; subst; clear H. cbn.
  eexists. split; [reflexivity|]. done.
Qed.

Lemma documentedMethods_default (s : Root) (pattern : string) :
  documentedMethods s pattern
  = Methods (default emptyPathItem (Paths (openapi s) !! pattern)).
Proof.
  unfold documentedMethods. by destruct (Paths (openapi s) !! pattern).
Qed.

(** X13.  Two registrations with a declaration on the same pattern, from any
    nodes, for a pattern without a dollar sign and methods among GET, POST,
    PUT, DELETE, PATCH.  The document then holds one descriptor under the
    pattern.  Its operation for the second method is the one built from the
    second declaration, with the operation id made of the method and the
    path: registering a method again overwrites.  If the methods differ, the
    operation of the first registration is still there, and the methods the
    document knows for the pattern are the two new ones and those it knew
    before. *)
Theorem documented_operations_accumulate
    (r1 r2 : Router) (m1 m2 pattern : string) (doc1 doc2 : Docs)
    (docs1 docs2 : list Docs) (s s1 s2 : Root) :
  occurs "$" pattern = false ->
  m1 ∈ descriptorMethods -> m2 ∈ descriptorMethods ->
  registerDocs r1 m1 pattern (doc1 :: docs1) s = Ok s1 ->
  registerDocs r2 m2 pattern (doc2 :: docs2) s1 = Ok s2 ->
  exists item,
    Paths (openapi s2) !! pattern = Some item
    /\ (exists op2,
          operationFor item m2 = Some op2
          /\ Operation_Summary op2 = Docs_Summary doc2
          /\ OperationID_ op2 = m2 +:+ OperationID pattern)
    /\ (m1 <> m2 ->
        exists op1,
          operationFor item m1 = Some op1
          /\ Operation_Summary op1 = Docs_Summary doc1)
    /\ (forall x, x ∈ documentedMethods s2 pattern
          <-> x = m1 \/ x = m2 \/ x ∈ documentedMethods s pattern)
    /\ forall q, q <> pattern ->
         Paths (openapi s2) !! q = Paths (openapi s) !! q.
Proof.
  intros Hd Hm1 Hm2 H1 H2.
  apply registerDocs_operation in H1 as (op1 & HP1 & Hs1 & _).
  apply registerDocs_operation in H2 as (op2 & HP2 & Hs2 & _ & _ & _ & Hid2).
  assert (strings_ReplaceAll pattern "{$}" "" = pattern) as Hstrip
    by (by apply (replaceFrom_absent "$")).
  rewrite Hstrip in *.
  set (item0 := default emptyPathItem (Paths (openapi s) !! pattern)) in *.
  assert (Paths (openapi s1) !! pattern = Some (SetMethod item0 m1 op1)) as Hl1
    by (rewrite HP1; apply lookup_insert_eq).
  rewrite Hl1 in HP2. cbn in HP2.
  exists (SetMethod (SetMethod item0 m1 op1) m2 op2).
  split; [rewrite HP2; apply lookup_insert_eq|].
  split; [|split; [|split]].
  - exists op2. rewrite operationFor_SetMethod, bool_decide_eq_true_2 by done.
    done.
  - intros Hne. exists op1.
    rewrite operationFor_SetMethod, bool_decide_eq_false_2 by (by intros [? _]).
    rewrite operationFor_SetMethod, bool_decide_eq_true_2 by done. done.
  - intros x. rewrite !documentedMethods_default, HP2, lookup_insert_eq.
    cbn. fold item0.
    rewrite !operationFor_Methods, !operationFor_SetMethod.
    destruct (decide (x = m2)) as [->|Hx2].
    { rewrite bool_decide_eq_true_2 by done. split; [auto|done]. }
    rewrite (bool_decide_eq_false_2 (x = m2 /\ _)) by (by intros [? _]).
    destruct (decide (x = m1)) as [->|Hx1].
    { rewrite bool_decide_eq_true_2 by done. split; [auto|done]. }
    rewrite bool_decide_eq_false_2 by (by intros [? _]).
    split; [auto|]. by intros [?|[?|?]].
  - intros q Hq. rewrite HP2, lookup_insert_ne, HP1, lookup_insert_ne by done.
    done.
Qed.

Lemma documented_operations_accumulate_witness :
  let s1 := getOk exampleRoot
              (registerDocs docsRouter "GET" "/users/{id}" [noDocs] exampleRoot) in
  let s2 := getOk exampleRoot
              (registerDocs docsRouter "PUT" "/users/{id}" [noDocs] s1) in
  exists item, Paths (openapi s2) !! "/users/{id}" = Some item
               /\ Methods item = ["GET"; "PUT"].
Proof.
  intros s1 s2.
  destruct (documented_operations_accumulate docsRouter docsRouter
              "GET" "PUT" "/users/{id}" noDocs noDocs [] [] exampleRoot s1 s2)
    as (item & Hitem & _); try (vm_compute; reflexivity).
  - left.
  - right; right; left.
  - exists item. split; [exact Hitem|].
    vm_compute in Hitem. injection Hitem as <-. reflexivity.
Defined.

(** ** Samples: what the two translations derive *)

Lemma docInField_struct name fields isNil (i : nat) f properties :
  fields !! i = Some f ->
  docInField (reflect.mkValue (reflect.StructOf name fields) isNil) i properties
  = Ok (<[reflect.Field_Name f :=
            Schema_ofType (reflect.Type_Name (reflect.Field_Type f))]>
          properties).
Proof. intros Hf. unfold docInField. cbn. rewrite Hf. done. Qed.

Lemma forRange_docInField name fields isNil pre rest properties :
  fields = (pre ++ rest)%list ->
  forRange (length rest) (length pre)
    (docInField (reflect.mkValue (reflect.StructOf name fields) isNil)) properties
  = Ok (fold_left
          (fun properties f =>
             <[reflect.Field_Name f :=
                 Schema_ofType (reflect.Type_Name (reflect.Field_Type f))]>
               properties)
          rest properties).
Proof.
  revert pre properties. induction rest as [|f rest IH]; intros pre properties ->.
  - done.
  - cbn [length forRange].
    rewrite (docInField_struct name _ isNil (length pre) f).
    + cbn. specialize (IH (pre ++ [f])%list). rewrite length_app in IH.
      cbn in IH. replace (length pre + 1)%nat with (S (length pre)) in IH by lia.
      apply IH. by rewrite <- app_assoc.
    + by rewrite lookup_app_r, Nat.sub_diag.
Qed.

Lemma docInEntry_struct (schemas : gmap string Schema) contentType docIn
    name fields isNil cs rb :
  DocIn_Object docIn = reflect.val (reflect.StructOf name fields) isNil ->
  docInEntry schemas contentType docIn (cs, rb)
  = Ok (match schemas !! name with
        | Some _ => cs
        | None => assign cs name (mkSchema "" "object" "" (inProperties fields) None [])
        end,
        Some {| RequestBody_Description :=
                  default "" (RequestBody_Description <$> rb);
                RequestBody_Content :=
                  <[contentType :=
                      {| MediaType_Schema := Some (Schema_ofRef (schemaRef name)) |}]>
                    (default ∅ (RequestBody_Content <$> rb));
                RequestBody_Required :=
                  default false (RequestBody_Required <$> rb) |}).
Proof.
  intros Hobj. unfold docInEntry. rewrite Hobj. cbn.
  destruct (schemas !! name); cbn.
  - by destruct rb.
  - rewrite (forRange_docInField name fields isNil [] fields ∅ eq_refl). cbn.
    by destruct rb.
Qed.

(** X14.  What the input translation derives.  For a declaration with one
    request-body sample, a struct whose type name is not in the component
    store, [handleDocIn] returns one component under the type name: an
    object whose properties are the fields under their Go names (a json tag
    is not looked at), each typed with the name of the field's Go type, and
    a request body whose entry for the content type refers to the component
    by name. *)
Theorem handleDocIn_struct
    (contentType : string) (docIn : DocIn) (name : string)
    (fields : list reflect.StructField) (isNil : bool)
    (schemas : gmap string Schema) :
  DocIn_Object docIn = reflect.val (reflect.StructOf name fields) isNil ->
  schemas !! name = None ->
  handleDocIn (Some {[ contentType := docIn ]}) schemas
  = Ok (Some {[ name := mkSchema "" "object" "" (inProperties fields) None [] ]},
        Some {| RequestBody_Description := "";
                RequestBody_Content :=
                  {[ contentType :=
                       {| MediaType_Schema :=
                            Some (Schema_ofRef (schemaRef name)) |} ]};
                RequestBody_Required := false |}).
Proof.
  intros Hobj Hnew. unfold handleDocIn. rewrite map_to_list_singleton.
  cbn [forEntries].
  rewrite (docInEntry_struct schemas contentType docIn name fields isNil)
    by done.
  rewrite Hnew. cbn. unfold assign. cbn. by rewrite !insert_empty.
Qed.

Lemma handleDocIn_struct_witness :
  derived (handleDocIn
             (Some {[ "application/json" :=
                        {| DocIn_Object := reflect.val User false;
                           DocIn_Required := true |} ]}) ∅)
  = Some {[ "User" := mkSchema "" "object" ""
                        {[ "ID" := Schema_ofType "string";
                           "Name" := Schema_ofType "string" ]} None [] ]}.
Proof.
  rewrite (handleDocIn_struct "application/json" _ "User"
             [reflect.mkStructField "ID" "id" stringType;
              reflect.mkStructField "Name" "name" stringType] false ∅);
    [vm_compute; reflexivity|reflexivity|reflexivity].
Defined.

(** X15.  A slice of structs as response sample.  The store is asked for
    the name of the slice type (the empty name for [[]User]), not for the
    name of the element type.  When that name is free, the translation
    derives a component under the name of the element type whose type is
    "array" and whose properties are those of the element struct, and the
    response refers to an array of references to it. *)
Theorem handleDocOut_slice
    (code : string) (out : DocOut) (sliceName name : string)
    (fields : list reflect.StructField) (isNil : bool)
    (schemas : gmap string Schema) :
  DocOut_Object out
  = reflect.val
      (reflect.ElemOf sliceName reflect.ESlice (reflect.StructOf name fields))
      isNil ->
  schemas !! sliceName = None ->
  handleDocOut (Some {[ code := out ]}) schemas
  = Ok (Some {[ name := mkSchema "" "array" "" (outProperties fields) None [] ]},
        Some {[ code :=
                  {| Response_Description := DocOut_Description out;
                     Response_Content :=
                       {[ ApplicationType out :=
                            {| MediaType_Schema :=
                                 Some (mkSchema "" "array" "" ∅
                                         (Some (Schema_ofRef (schemaRef name)))
                                         []) |} ]} |} ]}).
Proof.
  intros Hobj Hnew. unfold handleDocOut. rewrite map_to_list_singleton.
  cbn [forEntries]. unfold docOutEntry, docOutObject. rewrite Hobj.
  cbn. rewrite Hnew. cbn.
  rewrite (forRange_docOutField name fields true [] fields ∅ eq_refl).
  cbn. unfold assign, outProperties. cbn.
  by rewrite !insert_empty.
Qed.

Lemma handleDocOut_slice_witness :
  derived (handleDocOut
             (Some {[ "200" :=
                        {| ApplicationType := "application/json";
                           DocOut_Description := "";
                           DocOut_Object :=
                             reflect.val (reflect.ElemOf "" reflect.ESlice User)
                               false |} ]})
             {[ "User" := outObjectSchema [] ]})
  = Some {[ "User" := mkSchema "" "array" ""
                        {[ "id" := Schema_ofType "string";
                           "name" := Schema_ofType "string" ]} None [] ]}.
Proof.
  rewrite (handleDocOut_slice "200" _ "" "User"
             [reflect.mkStructField "ID" "id" stringType;
              reflect.mkStructField "Name" "name" stringType] false);
    [vm_compute; reflexivity|reflexivity|reflexivity].
Defined.




(** ** The redirect of a trailing slash *)







(** ** The interceptor of the earlier revision *)

(** X18.  The interceptor of the earlier revision, with its three fixed
    predicates for 404, 405 and 500, and the interceptor of the current
    revision over the map of these three predicates stay in step under
    every sequence of calls a handler makes: after the sequence both have the
    same inner writer, the same recorded status code and the same
    [intercepted] flag. *)
Theorem legacy_interceptor_simulates
    {W : Type} `{RW : ResponseWriter W} (ops : list op)
    (w : Legacy.routingStatusInterceptWriter W) :
  ofLegacy (runOps ops w) = runOps ops (ofLegacy w).
Proof.
  revert w. induction ops as [|o ops IH]; intros w; [done|].
  rewrite !runOps_cons, IH. f_equal.
  destruct o as [key value|key|code|data]; [done|done| |].
  - apply Legacy_WriteHeader_agrees.
  - pose proof (Legacy_Write_agrees w data) as H.
    cbn [runOp Write Legacy_routingStatusInterceptWriter_RW
         routingStatusInterceptWriter_RW].
    by rewrite <- H.
Qed.

(** ** The content-length middleware *)

Section ContentLength.
Context {W : Type} `{RW : ResponseWriter W}.

(** What a script leaves of the content-length writer: the inner writer has
    seen the forwarded calls, the buffer has grown by the bytes written. *)
Lemma runOps_contentLengthWriter (ops : list op)
    (clw : middleware.contentLengthWriter W) :
  runOps ops clw
  = {| middleware.ResponseWriter_ :=
         runOps (forwarded ops (middleware.wroteHeader clw))
           (middleware.ResponseWriter_ clw);
       middleware.buffer := (middleware.buffer clw ++ written ops)%list;
       middleware.statusCode :=
         if middleware.wroteHeader clw then middleware.statusCode clw
         else hd (middleware.statusCode clw) (writtenCodes ops);
       middleware.wroteHeader :=
         middleware.wroteHeader clw
         || match writtenCodes ops with [] => false | _ :: _ => true end |}.
Proof.
  revert clw. induction ops as [|o ops IH]; intros [inner buf code wrote].
  - cbn. rewrite app_nil_r, orb_false_r. by destruct wrote.
  - rewrite runOps_cons, IH. destruct o as [key value|key|c|data].
    + cbn. by destruct wrote.
    + cbn. by destruct wrote.
    + by destruct wrote; cbn; rewrite ?orb_true_r.
    + cbn. unfold written. cbn. by rewrite <- app_assoc.
Qed.

(** The statements after the handler, on what a script leaves. *)
Lemma finish_script (ops : list op) (w : W) :
  middleware.finish (runOps ops (middleware.newContentLengthWriter w))
  = let w1 := runOps (forwarded ops false) w in
    let w2 :=
      if String.eqb (Header_Get (Header w1) "Content-Length") ""
      then setHeader "Content-Length" (pretty (length (written ops))) w1
      else w1 in
    let w3 :=
      match writtenCodes ops with
      | [] => WriteHeader 0 w2
      | _ :: _ => w2
      end in
    (Write (written ops) w3).1.
Proof.
  rewrite runOps_contentLengthWriter. unfold middleware.finish. cbn.
  destruct (String.eqb _ ""); destruct (writtenCodes ops); reflexivity.
Qed.

(** X19.  Around a handler that is a fixed sequence of writer calls, the
    content-length middleware drives the writer it wraps as follows: the
    handler's header operations and its first [WriteHeader] reach it in
    order, at the time the handler makes them, while every [Write] and every
    later [WriteHeader] is withheld; after the handler has returned,
    [Content-Length] is set to the decimal number of bytes written unless
    the header is not empty by then, [WriteHeader(0)] is called when the
    handler never called [WriteHeader], and all the bytes are written in one
    [Write], in the order the handler wrote them. *)
Theorem ContentLengthMiddleware_script (ops : list op) (req : Request) (w : W) :
  middleware.ContentLengthMiddleware (script ops) W RW req w
  = let w1 := runOps (forwarded ops false) w in
    let w2 :=
      if String.eqb (Header_Get (Header w1) "Content-Length") ""
      then setHeader "Content-Length" (pretty (length (written ops))) w1
      else w1 in
    let w3 :=
      match writtenCodes ops with
      | [] => WriteHeader 0 w2
      | _ :: _ => w2
      end in
    (Write (written ops) w3).1.
Proof.
  unfold middleware.ContentLengthMiddleware, script. apply finish_script.
Qed.
End ContentLength.

Lemma forwarded_touches (key : string) (ops : list op) (wrote : bool) :
  forallb (fun o => negb (touchesHeader key o)) ops = true ->
  forallb (fun o => negb (touchesHeader key o)) (forwarded ops wrote) = true.
Proof.
  revert wrote. induction ops as [|o ops IH]; intros wrote H; [done|].
  cbn in H. apply andb_true_iff in H as [Ho H].
  destruct o as [k v|k|c|data]; cbn.
  - rewrite IH by done. cbn in Ho. by rewrite Ho.
  - rewrite IH by done. cbn in Ho. by rewrite Ho.
  - destruct wrote; cbn; by rewrite IH.
  - by apply IH.
Qed.

Lemma runOps_untouched_header (key : string) (ops : list op) (w : Recorder) :
  forallb (fun o => negb (touchesHeader key o)) ops = true ->
  rec_header (runOps ops w) !! key = rec_header w !! key.
Proof.
  revert w. induction ops as [|o ops IH]; intros w H; [done|].
  cbn in H. apply andb_true_iff in H as [Ho H].
  rewrite runOps_cons, IH by done.
  destruct o as [k v|k|c|data]; cbn; [| |done|done].
  - unfold Header_Set. apply lookup_insert_ne. cbn in Ho.
    intros ->. by rewrite String.eqb_refl in Ho.
  - unfold Header_Del. apply lookup_delete_ne. cbn in Ho.
    intros ->. by rewrite String.eqb_refl in Ho.
Qed.

Lemma rec_calls_forwarded (ops : list op) (wrote : bool) (w : Recorder) :
  rec_calls (runOps (forwarded ops wrote) w)
  = (rec_calls w
     ++ (if wrote then []
         else match writtenCodes ops with
              | [] => []
              | code :: _ => [CallWriteHeader code]
              end))%list.
Proof.
  revert wrote w. induction ops as [|o ops IH]; intros wrote w.
  - cbn. by destruct wrote; rewrite app_nil_r.
  - destruct o as [k v|k|c|data]; cbn [forwarded].
    + rewrite runOps_cons, IH. done.
    + rewrite runOps_cons, IH. done.
    + destruct wrote.
      * rewrite IH. done.
      * rewrite runOps_cons, IH. cbn. by rewrite app_nil_r.
    + rewrite IH. done.
Qed.

(** X20.  On the recording writer: whatever the handler's sequence of calls,
    the content-length middleware makes exactly two calls on the wrapped
    writer, one [WriteHeader] and then one [Write].  The status is the one of
    the handler's first [WriteHeader], and 0 when the handler calls none;
    the body is all the bytes the handler wrote.  When neither the writer
    nor the handler carries a [Content-Length], the header ends up as the
    decimal length of that body. *)
Theorem ContentLengthMiddleware_one_status_one_write
    (ops : list op) (req : Request) (w : Recorder) :
  Header_Get (rec_header w) "Content-Length" = "" ->
  forallb (fun o => negb (touchesHeader "Content-Length" o)) ops = true ->
  let w' :=
    middleware.ContentLengthMiddleware (script ops) Recorder _ req w in
  rec_calls w'
  = (rec_calls w
     ++ [CallWriteHeader (hd 0 (writtenCodes ops)); CallWrite (written ops)])%list
  /\ Header_Get (rec_header w') "Content-Length"
     = pretty (length (written ops)).
Proof.
  intros Hw Hops w'. unfold w', middleware.ContentLengthMiddleware, script.
  rewrite finish_script. cbn zeta.
  assert (Header_Get (Header (runOps (forwarded ops false) w)) "Content-Length"
          = "") as Hcl.
  { unfold Header_Get in *. cbn [Header Recorder_RW].
    rewrite runOps_untouched_header; [done|]. by apply forwarded_touches. }
  rewrite Hcl. cbn [String.eqb]. split.
  - pose proof (rec_calls_forwarded ops false w) as Hc.
    destruct (writtenCodes ops) as [|c cs]; cbn in *; rewrite Hc.
    + by rewrite app_nil_r, <- app_assoc.
    + by rewrite <- !app_assoc.
  - destruct (writtenCodes ops); cbn; unfold Header_Get, Header_Set;
      by rewrite lookup_insert_eq.
Qed.

Lemma ContentLengthMiddleware_one_status_one_write_witness :
  let ops := [OpWrite [Byte.x68; Byte.x69]; OpWriteHeader 201;
              OpWrite [Byte.x21]] in
  let w' :=
    middleware.ContentLengthMiddleware (script ops) Recorder _
      {| Method := "GET"; URL_Path := "/" |} newRecorder in
  rec_calls w'
  = [CallWriteHeader 201; CallWrite [Byte.x68; Byte.x69; Byte.x21]]
  /\ Header_Get (rec_header w') "Content-Length" = "3".
Proof.
  exact (ContentLengthMiddleware_one_status_one_write
           [OpWrite [Byte.x68; Byte.x69]; OpWriteHeader 201;
            OpWrite [Byte.x21]]
           {| Method := "GET"; URL_Path := "/" |} newRecorder
           eq_refl eq_refl).
Defined.

(** ** Cross-origin requests *)

Lemma length_append (a b : string) :
  String.length (a +:+ b) = (String.length a + String.length b)%nat.
Proof.
  induction a as [|c a IH]; [done|].
  change (S (String.length (a +:+ b))
          = S (String.length a + String.length b)). by rewrite IH.
Qed.

Lemma substring_all (s : string) : substring 0 (String.length s) s = s.
Proof. induction s as [|c s IH]; [done|]. cbn. by rewrite IH. Qed.

Lemma substring_skip (pre s : string) (n : nat) :
  substring (String.length pre) n (pre +:+ s) = substring 0 n s.
Proof.
  induction pre as [|c pre IH]; [done|].
  change (substring (String.length pre) n (pre +:+ s) = substring 0 n s).
  exact IH.
Qed.

Lemma substring_split (s : string) (k : nat) :
  (k <= String.length s)%nat ->
  s = substring 0 k s +:+ substring k (String.length s - k) s.
Proof.
  revert k. induction s as [|c s IH]; intros k Hk.
  - cbn in Hk. by replace k with O by lia.
  - destruct k as [|k].
    + change (String c s
              = "" +:+ substring 0 (String.length (String c s)) (String c s)).
      by rewrite substring_all.
    + cbn in Hk.
      change (String c s
              = String c (substring 0 k s
                          +:+ substring k (String.length s - k) s)).
      f_equal. apply IH. lia.
Qed.

Lemma strings_HasSuffix_spec (s suffix : string) :
  strings_HasSuffix s suffix = true <-> exists pre, s = pre +:+ suffix.
Proof.
  unfold strings_HasSuffix. split.
  - intros H. apply andb_true_iff in H as [Hlen Heq].
    apply Nat.leb_le in Hlen. apply String.eqb_eq in Heq.
    exists (substring 0 (String.length s - String.length suffix) s).
    pose proof (substring_split s (String.length s - String.length suffix))
      as H.
    replace (String.length s - (String.length s - String.length suffix))%nat
      with (String.length suffix) in H by lia.
    rewrite Heq in H. apply H. lia.
  - intros [pre ->]. rewrite length_append. apply andb_true_iff. split.
    + apply Nat.leb_le. lia.
    + replace (String.length pre + String.length suffix
               - String.length suffix)%nat
        with (String.length pre) by lia.
      rewrite substring_skip, substring_all. apply String.eqb_refl.
Qed.

Lemma strings_HasPrefix_spec (s prefix : string) :
  strings_HasPrefix s prefix = true <-> exists t, s = prefix +:+ t.
Proof.
  split.
  - revert s. induction prefix as [|p prefix IH]; intros s H.
    + by exists s.
    + destruct s as [|c s]; [done|].
      rewrite strings_HasPrefix_cons in H.
      destruct (Ascii.eqb_spec p c) as [->|]; [|done].
      destruct (IH s H) as [t ->]. by exists t.
  - intros [t ->]. apply strings_HasPrefix_append.
Qed.

Lemma preprocessOrigins_spec (origins allowed wildcard : list string) :
  "*" ∉ origins ->
  exists allowed' wildcard',
    middleware.preprocessOrigins origins allowed wildcard
    = (false, allowed', wildcard')
    /\ (forall x, x ∈ allowed' <->
          x ∈ allowed \/ (x ∈ origins /\ strings_HasPrefix x "*." = false))
    /\ (forall x, x ∈ wildcard' <->
          x ∈ wildcard
          \/ exists o, o ∈ origins /\ strings_HasPrefix o "*." = true
                       /\ x = middleware.dropFirst o).
Proof.
  revert allowed wildcard.
  induction origins as [|o origins IH]; intros allowed wildcard Hstar.
  - exists allowed, wildcard. split; [done|]. split; intros x.
    + rewrite elem_of_nil. tauto.
    + split; [tauto|]. intros [H|(o & H & _)]; [done|].
      by apply elem_of_nil in H.
  - apply not_elem_of_cons in Hstar as [Hne Hstar].
    cbn [middleware.preprocessOrigins].
    destruct (String.eqb_spec o "*") as [->|_]; [done|].
    destruct (strings_HasPrefix o "*.") eqn:Hp.
    + destruct (IH allowed (wildcard ++ [middleware.dropFirst o])%list Hstar)
        as (a' & w' & -> & Ha & Hw).
      exists a', w'. split; [done|]. split; intros x.
      * rewrite Ha, elem_of_cons. split; [tauto|].
        intros [H|[[->|H] Hx]]; [tauto|congruence|tauto].
      * rewrite Hw, elem_of_app, list_elem_of_singleton. split.
        -- intros [[H| ->]|(o' & Ho' & Hp' & ->)].
           ++ by left.
           ++ right. exists o. rewrite elem_of_cons. tauto.
           ++ right. exists o'. rewrite elem_of_cons. tauto.
        -- intros [H|(o' & Ho' & Hp' & ->)]; [tauto|].
           apply elem_of_cons in Ho' as [->|Ho']; [tauto|].
           right. by exists o'.
    + destruct (IH (allowed ++ [o])%list wildcard Hstar)
        as (a' & w' & -> & Ha & Hw).
      exists a', w'. split; [done|]. split; intros x.
      * rewrite Ha, elem_of_app, list_elem_of_singleton, elem_of_cons.
        split; [|tauto].
        intros [[H| ->]|[H Hx]]; tauto.
      * rewrite Hw. split.
        -- intros [H|(o' & Ho' & Hp' & ->)]; [tauto|].
           right. exists o'. rewrite elem_of_cons. tauto.
        -- intros [H|(o' & Ho' & Hp' & ->)]; [tauto|].
           apply elem_of_cons in Ho' as [->|Ho']; [congruence|].
           right. by exists o'.
Qed.

Lemma preprocessOrigins_all (origins allowed wildcard : list string) :
  "*" ∈ origins ->
  (middleware.preprocessOrigins origins allowed wildcard).1.1 = true.
Proof.
  revert allowed wildcard.
  induction origins as [|o origins IH]; intros allowed wildcard Hstar.
  - by apply elem_of_nil in Hstar.
  - cbn [middleware.preprocessOrigins].
    destruct (String.eqb_spec o "*") as [->|Hne]; [done|].
    apply elem_of_cons in Hstar as [Heq|Hstar]; [congruence|].
    destruct (strings_HasPrefix o "*."); by apply IH.
Qed.

Lemma rangeAllowedOrigins_spec (allowed : list string) (origin : string) :
  ((origin ∈ allowed)
   /\ middleware.rangeAllowedOrigins allowed origin = origin)
  \/ ((origin ∉ allowed)
      /\ middleware.rangeAllowedOrigins allowed origin = "").
Proof.
  induction allowed as [|o allowed IH].
  - right. split; [apply not_elem_of_nil|done].
  - cbn. destruct (String.eqb_spec o origin) as [->|Hne].
    + left. split; [by left|done].
    + destruct IH as [[H ->]|[H ->]].
      * left. split; [by right|done].
      * right. split; [|done]. apply not_elem_of_cons. split; [congruence|done].
Qed.

Lemma rangeWildcardOrigins_spec (wildcard : list string) (origin : string) :
  ((exists wo, wo ∈ wildcard /\ strings_HasSuffix origin wo = true)
   /\ middleware.rangeWildcardOrigins wildcard origin = origin)
  \/ ((forall wo, wo ∈ wildcard -> strings_HasSuffix origin wo = false)
      /\ middleware.rangeWildcardOrigins wildcard origin = "").
Proof.
  induction wildcard as [|wo wildcard IH].
  - right. split; [|done]. intros wo H. by apply elem_of_nil in H.
  - cbn. destruct (strings_HasSuffix origin wo) eqn:Hs.
    + left. split; [|done]. exists wo. split; [by left|done].
    + destruct IH as [[(wo' & H & Hs') ->]|[H ->]].
      * left. split; [|done]. exists wo'. split; [by right|done].
      * right. split; [|done]. intros wo' Hin.
        apply elem_of_cons in Hin as [->|Hin]; [done|by apply H].
Qed.

Lemma allowedOriginFor_listed (options : middleware.CORSOptions)
    (origin : string) :
  origin <> "" ->
  "*" ∉ middleware.AllowedOrigins options ->
  (originListed (middleware.AllowedOrigins options) origin
   /\ middleware.allowedOriginFor options origin = Some origin)
  \/ (~ originListed (middleware.AllowedOrigins options) origin
      /\ middleware.allowedOriginFor options origin = None).
Proof.
  intros Hne Hstar. unfold middleware.allowedOriginFor.
  destruct (preprocessOrigins_spec (middleware.AllowedOrigins options) [] []
              Hstar) as (allowed & wildcard & -> & Ha & Hw).
  assert (String.eqb origin "" = false) as Hnb by (by apply String.eqb_neq).
  destruct (rangeAllowedOrigins_spec allowed origin) as [[Hin ->]|[Hnin ->]].
  { rewrite Hnb. simpl. rewrite Hnb. left. split; [|done]. left.
    by apply Ha in Hin as [Hin|[Hin _]]; [apply elem_of_nil in Hin|]. }
  cbn [String.eqb].
  destruct (rangeWildcardOrigins_spec wildcard origin)
    as [[(wo & Hin & Hs) ->]|[Hnone ->]].
  { rewrite Hnb. left. split; [|done]. right.
    apply Hw in Hin as [Hin|(o & Ho & Hp & ->)];
      [by apply elem_of_nil in Hin|].
    apply strings_HasPrefix_spec in Hp as [t ->].
    apply strings_HasSuffix_spec in Hs as [pre ->].
    by exists t, pre. }
  right. split; [|done]. intros [Hin|(t & pre & Hin & ->)].
  - destruct (strings_HasPrefix origin "*.") eqn:Hp.
    + apply strings_HasPrefix_spec in Hp as [t ->].
      assert (strings_HasSuffix ("*." +:+ t) ("." +:+ t) = false) as Hf.
      { apply Hnone, Hw. right. exists ("*." +:+ t).
        split; [done|]. split; [apply strings_HasPrefix_append|done]. }
      assert (strings_HasSuffix ("*." +:+ t) ("." +:+ t) = true) as Ht.
      { apply strings_HasSuffix_spec. by exists "*". }
      congruence.
    + apply Hnin, Ha. tauto.
  - assert (strings_HasSuffix (pre +:+ "." +:+ t) ("." +:+ t) = false) as Hf.
    { apply Hnone, Hw. right. exists ("*." +:+ t).
      split; [done|]. split; [apply strings_HasPrefix_append|done]. }
    assert (strings_HasSuffix (pre +:+ "." +:+ t) ("." +:+ t) = true) as Ht.
    { apply strings_HasSuffix_spec. by exists pre. }
    congruence.
Qed.

(** X21.  The origin the CORS middleware answers with, for a request whose
    [Origin] is not empty.  When ["*"] is among the configured origins the
    answer is ["*"], whatever else is configured.  Otherwise the request's
    own origin is echoed when it is listed, that is, equal to a configured
    origin or ending in the part after the star of a configured
    ["*."]-origin (dot included, any scheme, any depth of subdomain), and
    the origin is refused when it is not listed. *)
Theorem CORS_origin_decision (options : middleware.CORSOptions)
    (origin : string) :
  origin <> "" ->
  ("*" ∈ middleware.AllowedOrigins options ->
     middleware.allowedOriginFor options origin = Some "*")
  /\ ("*" ∉ middleware.AllowedOrigins options ->
      (originListed (middleware.AllowedOrigins options) origin ->
         middleware.allowedOriginFor options origin = Some origin)
      /\ (~ originListed (middleware.AllowedOrigins options) origin ->
            middleware.allowedOriginFor options origin = None)).
Proof.
  intros Hne. split.
  - intros Hstar. unfold middleware.allowedOriginFor.
    pose proof (preprocessOrigins_all (middleware.AllowedOrigins options)
                  [] [] Hstar) as H.
    destruct (middleware.preprocessOrigins _ _ _) as [[all a] wc].
    cbn in H. by rewrite H.
  - intros Hstar.
    destruct (allowedOriginFor_listed options origin Hne Hstar)
      as [[Hl ->]|[Hl ->]]; split; tauto.
Qed.

Lemma CORS_origin_decision_witness :
  middleware.allowedOriginFor
    {| middleware.AllowedOrigins := ["https://example.com"; "*.example.org"];
       middleware.AllowedMethods := []; middleware.AllowedHeaders := [];
       middleware.ExposedHeaders := []; middleware.AllowCredentials := false;
       middleware.MaxAge := 0 |}
    "http://a.b.example.org"
  = Some "http://a.b.example.org".
Proof.
  apply (CORS_origin_decision
           {| middleware.AllowedOrigins :=
                ["https://example.com"; "*.example.org"];
              middleware.AllowedMethods := []; middleware.AllowedHeaders := [];
              middleware.ExposedHeaders := [];
              middleware.AllowCredentials := false;
              middleware.MaxAge := 0 |}
           "http://a.b.example.org").
  - discriminate.
  - intros H. cbn in H. apply elem_of_cons in H as [H|H]; [discriminate|].
    apply list_elem_of_singleton in H. discriminate.
  - right. exists "example.org", "http://a.b". split; [|reflexivity].
    cbn. right. by left.
Defined.

Lemma untouched_of_setKeys (key : string) (ops : list op) :
  key ∉ setKeys ops ->
  forallb (fun o => negb (touchesHeader key o)) ops = true.
Proof.
  induction ops as [|o ops IH]; intros H; [done|].
  destruct o as [k v|k|c|data]; cbn in *.
  - apply not_elem_of_cons in H as [Hne H]. rewrite IH by done.
    destruct (String.eqb_spec k key); [congruence|done].
  - apply not_elem_of_cons in H as [Hne H]. rewrite IH by done.
    destruct (String.eqb_spec k key); [congruence|done].
  - by apply IH.
  - by apply IH.
Qed.

Section LawfulScripts.
Context {W : Type} `{HL : HeaderLaws W}.

Lemma runOps_untouched (key : string) (ops : list op) (w : W) :
  forallb (fun o => negb (touchesHeader key o)) ops = true ->
  Header (runOps ops w) !! key = Header w !! key.
Proof.
  revert w. induction ops as [|o ops IH]; intros w H; [done|].
  cbn in H. apply andb_true_iff in H as [Ho H].
  rewrite runOps_cons, IH by done.
  destruct o as [k v|k|c|data]; cbn [runOp].
  - rewrite Header_SetHeader. unfold Header_Set. apply lookup_insert_ne.
    cbn in Ho. intros ->. by rewrite String.eqb_refl in Ho.
  - rewrite Header_SetHeader. unfold Header_Del. apply lookup_delete_ne.
    cbn in Ho. intros ->. by rewrite String.eqb_refl in Ho.
  - by rewrite Header_WriteHeader.
  - by rewrite Header_Write.
Qed.

Lemma headerAfter_set (ops ops' : list op) (key value : string) (w : W) :
  forallb (fun o => negb (touchesHeader key o)) ops' = true ->
  headerAfter (ops ++ OpSetHeader key value :: ops') w key = value.
Proof.
  intros H. unfold headerAfter, Header_Get.
  rewrite runOps_app, runOps_cons, runOps_untouched by done.
  cbn [runOp]. rewrite Header_SetHeader. unfold Header_Set.
  by rewrite lookup_insert_eq.
Qed.
End LawfulScripts.

Section CORSFacts.
Context (Request_Header : Request -> header).
Context {W : Type} `{HL : HeaderLaws W}.

Lemma CORS_preflight_script (options : middleware.CORSOptions)
    (next : Handler) (req : Request) (w : W) (allowedOrigin : string) :
  Header_Get (Request_Header req) "Origin" <> "" ->
  middleware.allowedOriginFor options (Header_Get (Request_Header req) "Origin")
  = Some allowedOrigin ->
  Method req = MethodOptions ->
  middleware.CORS Request_Header options next W RW req w
  = WriteHeader StatusNoContent
      (runOps (middleware.preflightHeaders Request_Header options req
                 allowedOrigin) w).
Proof.
  intros Hne Hdec Hm. unfold middleware.CORS, middleware.preflightHeaders.
  apply String.eqb_neq in Hne. rewrite Hne, Hdec, Hm. cbn [String.eqb].
  replace (MethodOptions =? MethodOptions)%string with true by done.
  cbv zeta.
  destruct (middleware.AllowCredentials options);
    destruct (0 <? length (middleware.AllowedMethods options))%nat;
    destruct (0 <? length (middleware.AllowedHeaders options))%nat;
    destruct (0 <? middleware.MaxAge options)%Z;
    repeat match goal with
           | |- context [negb (String.eqb ?a "")] =>
               destruct (negb (String.eqb a ""))
           end;
    reflexivity.
Qed.

Lemma CORS_actual_script (options : middleware.CORSOptions)
    (next : Handler) (req : Request) (w : W) (allowedOrigin : string) :
  Header_Get (Request_Header req) "Origin" <> "" ->
  middleware.allowedOriginFor options (Header_Get (Request_Header req) "Origin")
  = Some allowedOrigin ->
  Method req <> MethodOptions ->
  middleware.CORS Request_Header options next W RW req w
  = next W RW req (runOps (middleware.actualHeaders options allowedOrigin) w).
Proof.
  intros Hne Hdec Hm. unfold middleware.CORS, middleware.actualHeaders.
  apply String.eqb_neq in Hne. apply String.eqb_neq in Hm.
  rewrite Hne, Hdec, Hm. cbv zeta.
  destruct (middleware.AllowCredentials options);
    destruct (0 <? length (middleware.ExposedHeaders options))%nat;
    reflexivity.
Qed.

Lemma setKeys_preflightHeaders (options : middleware.CORSOptions)
    (req : Request) (allowedOrigin key : string) :
  key ∈ setKeys (middleware.preflightHeaders Request_Header options req
                   allowedOrigin) ->
  key ∈ corsKeys.
Proof.
  unfold middleware.preflightHeaders, setKeys.
  rewrite !omap_app, !elem_of_app. cbv zeta.
  destruct (middleware.AllowCredentials options);
    destruct (0 <? length (middleware.AllowedMethods options))%nat;
    destruct (0 <? length (middleware.AllowedHeaders options))%nat;
    destruct (0 <? middleware.MaxAge options)%Z;
    repeat match goal with
           | |- context [negb (String.eqb ?a "")] =>
               destruct (negb (String.eqb a ""))
           end;
    cbn; rewrite ?elem_of_nil, ?list_elem_of_singleton;
    intros H; decompose [or] H; subst; try done;
    unfold corsKeys; rewrite !elem_of_cons; tauto.
Qed.

Lemma setKeys_actualHeaders (options : middleware.CORSOptions)
    (allowedOrigin key : string) :
  key ∈ setKeys (middleware.actualHeaders options allowedOrigin) ->
  key ∈ corsKeys.
Proof.
  unfold middleware.actualHeaders, setKeys.
  rewrite !omap_app, !elem_of_app.
  destruct (middleware.AllowCredentials options);
    destruct (0 <? length (middleware.ExposedHeaders options))%nat;
    cbn; rewrite ?elem_of_nil, ?list_elem_of_singleton;
    intros H; decompose [or] H; subst; try done;
    unfold corsKeys; rewrite !elem_of_cons; tauto.
Qed.

Lemma allowedOriginFor_Some (options : middleware.CORSOptions)
    (origin allowedOrigin : string) :
  origin <> "" ->
  middleware.allowedOriginFor options origin = Some allowedOrigin ->
  allowedOrigin = "*" \/ allowedOrigin = origin.
Proof.
  intros Hne H.
  destruct (decide ("*" ∈ middleware.AllowedOrigins options)) as [Hstar|Hstar].
  - left. unfold middleware.allowedOriginFor in H.
    pose proof (preprocessOrigins_all (middleware.AllowedOrigins options)
                  [] [] Hstar) as Hall.
    destruct (middleware.preprocessOrigins _ _ _) as [[all a] wc].
    cbn in Hall. rewrite Hall in H. congruence.
  - right.
    destruct (allowedOriginFor_listed options origin Hne Hstar)
      as [[_ Hs]|[_ Hs]]; congruence.
Qed.
End CORSFacts.

Ltac header_lookup :=
  unfold headerAfter; cbn [runOps fold_left runOp app];
  rewrite ?Header_SetHeader; unfold Header_Get, Header_Set;
  repeat first [rewrite lookup_insert_eq
               |rewrite lookup_insert_ne by discriminate];
  reflexivity.

Section CORSHandler.
Context (Request_Header : Request -> header).
Context {W : Type} `{HL : HeaderLaws W}.

(** X22.  An origin that is not listed is refused before anything else
    happens: when ["*"] is not configured and the request's [Origin] is not
    empty and not listed, the middleware answers with [WriteHeader(403)] on
    the untouched writer, whatever the method; the next handler is not
    run and no header is set. *)
Theorem CORS_refuses_unlisted_origin (options : middleware.CORSOptions)
    (next : Handler) (req : Request) (w : W) :
  Header_Get (Request_Header req) "Origin" <> "" ->
  "*" ∉ middleware.AllowedOrigins options ->
  ~ originListed (middleware.AllowedOrigins options)
      (Header_Get (Request_Header req) "Origin") ->
  middleware.CORS Request_Header options next W RW req w
  = WriteHeader StatusForbidden w.
Proof.
  intros Hne Hstar Hl. unfold middleware.CORS.
  destruct (allowedOriginFor_listed options _ Hne Hstar) as [[H _]|[_ ->]];
    [done|].
  apply String.eqb_neq in Hne. by rewrite Hne.
Qed.

(** X23.  A preflight request, that is, method OPTIONS with an origin that
    is allowed, is answered by the middleware itself: the next handler is
    not run, the response is [WriteHeader(204)] after the CORS headers have
    been set.  [Access-Control-Allow-Origin] is the allowed origin, which is
    ["*"] or the request's origin; with credentials allowed
    [Access-Control-Allow-Credentials] is ["true"] (also beside ["*"]);
    configured methods and headers are listed joined by [", "]; and no
    header outside the six CORS headers is changed. *)
Theorem CORS_preflight_answered_by_middleware
    (options : middleware.CORSOptions) (next : Handler) (req : Request)
    (w : W) (allowedOrigin : string) :
  Header_Get (Request_Header req) "Origin" <> "" ->
  middleware.allowedOriginFor options (Header_Get (Request_Header req) "Origin")
  = Some allowedOrigin ->
  Method req = MethodOptions ->
  let ops :=
    middleware.preflightHeaders Request_Header options req allowedOrigin in
  middleware.CORS Request_Header options next W RW req w
  = WriteHeader StatusNoContent (runOps ops w)
  /\ (allowedOrigin = "*"
      \/ allowedOrigin = Header_Get (Request_Header req) "Origin")
  /\ headerAfter ops w "Access-Control-Allow-Origin" = allowedOrigin
  /\ (middleware.AllowCredentials options = true ->
      headerAfter ops w "Access-Control-Allow-Credentials" = "true")
  /\ (middleware.AllowedMethods options <> [] ->
      headerAfter ops w "Access-Control-Allow-Methods"
      = strings_Join (middleware.AllowedMethods options) ", ")
  /\ (middleware.AllowedHeaders options <> [] ->
      headerAfter ops w "Access-Control-Allow-Headers"
      = strings_Join (middleware.AllowedHeaders options) ", ")
  /\ (forall key, key ∉ corsKeys ->
      Header (runOps ops w) !! key = Header w !! key).
Proof.
  intros Hne Hdec Hm ops.
  split; [by apply CORS_preflight_script|].
  split; [by eapply allowedOriginFor_Some|].
  assert (forall key, key ∉ corsKeys ->
            Header (runOps ops w) !! key = Header w !! key) as Hother.
  { intros key Hkey. apply runOps_untouched, untouched_of_setKeys.
    intros Hin. by apply setKeys_preflightHeaders in Hin. }
  split; [|split; [|split; [|split; [|exact Hother]]]]; clear Hother;
    unfold ops, middleware.preflightHeaders; cbv zeta.
  - destruct (middleware.AllowCredentials options);
      destruct (0 <? length (middleware.AllowedMethods options))%nat;
      destruct (0 <? length (middleware.AllowedHeaders options))%nat;
      destruct (0 <? middleware.MaxAge options)%Z;
      repeat match goal with
             | |- context [negb (String.eqb ?a "")] =>
                 destruct (negb (String.eqb a ""))
             end;
      header_lookup.
  - intros ->.
    destruct (0 <? length (middleware.AllowedMethods options))%nat;
      destruct (0 <? length (middleware.AllowedHeaders options))%nat;
      destruct (0 <? middleware.MaxAge options)%Z;
      repeat match goal with
             | |- context [negb (String.eqb ?a "")] =>
                 destruct (negb (String.eqb a ""))
             end;
      header_lookup.
  - intros Hms.
    destruct (middleware.AllowedMethods options) as [|m ms] eqn:E; [done|].
    change (0 <? length (m :: ms))%nat with true. cbv iota.
    destruct (middleware.AllowCredentials options);
      destruct (0 <? length (middleware.AllowedHeaders options))%nat;
      destruct (0 <? middleware.MaxAge options)%Z;
      repeat match goal with
             | |- context [negb (String.eqb ?a "")] =>
                 destruct (negb (String.eqb a ""))
             end;
      header_lookup.
  - intros Hhs.
    destruct (middleware.AllowedHeaders options) as [|h hs] eqn:E; [done|].
    change (0 <? length (h :: hs))%nat with true. cbv iota.
    destruct (middleware.AllowCredentials options);
      destruct (0 <? length (middleware.AllowedMethods options))%nat;
      destruct (0 <? middleware.MaxAge options)%Z;
      repeat match goal with
             | |- context [negb (String.eqb ?a "")] =>
                 destruct (negb (String.eqb a ""))
             end;
      header_lookup.
Qed.

(** X24.  Any other request with an allowed origin reaches the next
    handler, on the same writer with the CORS headers set beforehand:
    [Access-Control-Allow-Origin] is the allowed origin, which is ["*"] or
    the request's origin; with credentials allowed
    [Access-Control-Allow-Credentials] is ["true"]; configured exposed
    headers are listed joined by [", "]; no header outside the six CORS
    headers is changed, and nothing is written before the handler runs. *)
Theorem CORS_actual_request_reaches_handler
    (options : middleware.CORSOptions) (next : Handler) (req : Request)
    (w : W) (allowedOrigin : string) :
  Header_Get (Request_Header req) "Origin" <> "" ->
  middleware.allowedOriginFor options (Header_Get (Request_Header req) "Origin")
  = Some allowedOrigin ->
  Method req <> MethodOptions ->
  let ops := middleware.actualHeaders options allowedOrigin in
  middleware.CORS Request_Header options next W RW req w
  = next W RW req (runOps ops w)
  /\ forallb isHeaderOp ops = true
  /\ (allowedOrigin = "*"
      \/ allowedOrigin = Header_Get (Request_Header req) "Origin")
  /\ headerAfter ops w "Access-Control-Allow-Origin" = allowedOrigin
  /\ (middleware.AllowCredentials options = true ->
      headerAfter ops w "Access-Control-Allow-Credentials" = "true")
  /\ (middleware.ExposedHeaders options <> [] ->
      headerAfter ops w "Access-Control-Expose-Headers"
      = strings_Join (middleware.ExposedHeaders options) ", ")
  /\ (forall key, key ∉ corsKeys ->
      Header (runOps ops w) !! key = Header w !! key).
Proof.
  intros Hne Hdec Hm ops.
  split; [by apply CORS_actual_script|].
  split.
  { unfold ops, middleware.actualHeaders.
    destruct (middleware.AllowCredentials options);
      by destruct (0 <? length (middleware.ExposedHeaders options))%nat. }
  split; [by eapply allowedOriginFor_Some|].
  assert (forall key, key ∉ corsKeys ->
            Header (runOps ops w) !! key = Header w !! key) as Hother.
  { intros key Hkey. apply runOps_untouched, untouched_of_setKeys.
    intros Hin. by apply setKeys_actualHeaders in Hin. }
  split; [|split; [|split; [|exact Hother]]]; clear Hother;
    unfold ops, middleware.actualHeaders.
  - destruct (middleware.AllowCredentials options);
      destruct (0 <? length (middleware.ExposedHeaders options))%nat;
      header_lookup.
  - intros ->.
    destruct (0 <? length (middleware.ExposedHeaders options))%nat;
      header_lookup.
  - intros Hes.
    destruct (middleware.ExposedHeaders options) as [|e es] eqn:E; [done|].
    change (0 <? length (e :: es))%nat with true. cbv iota.
    destruct (middleware.AllowCredentials options); header_lookup.
Qed.
End CORSHandler.

Lemma CORS_refuses_unlisted_origin_witness :
  middleware.CORS (fromOrigin "https://evil.test") exampleCORS
    (statusHandler 200) Recorder _ {| Method := "GET"; URL_Path := "/" |}
    newRecorder
  = {| rec_header := ∅; rec_calls := [CallWriteHeader 403] |}.
Proof.
  rewrite (CORS_refuses_unlisted_origin (fromOrigin "https://evil.test")
             exampleCORS (statusHandler 200)
             {| Method := "GET"; URL_Path := "/" |} newRecorder).
  - reflexivity.
  - vm_compute. discriminate.
  - intros H. apply elem_of_cons in H as [H|H]; [discriminate|].
    apply list_elem_of_singleton in H. discriminate.
  - intros [H|(t & pre & H & E)].
    + apply elem_of_cons in H as [H|H]; [vm_compute in H; discriminate|].
      apply list_elem_of_singleton in H. vm_compute in H. discriminate.
    + apply elem_of_cons in H as [H|H]; [discriminate|].
      apply list_elem_of_singleton in H. injection H as H.
      change (t = "example.org") in H. subst t.
      assert (strings_HasSuffix "https://evil.test" ".example.org" = true)
        as Hs by (apply strings_HasSuffix_spec; exists pre; exact E).
      vm_compute in Hs. discriminate.
Defined.

Lemma CORS_preflight_answered_by_middleware_witness :
  let w' :=
    middleware.CORS (fromOrigin "http://a.example.org") exampleCORS
      (statusHandler 200) Recorder _
      {| Method := "OPTIONS"; URL_Path := "/users" |} newRecorder in
  rec_calls w' = [CallWriteHeader 204]
  /\ Header_Get (rec_header w') "Access-Control-Allow-Origin"
     = "http://a.example.org"
  /\ Header_Get (rec_header w') "Access-Control-Allow-Methods" = "GET, POST".
Proof.
  destruct (CORS_preflight_answered_by_middleware
              (fromOrigin "http://a.example.org") exampleCORS
              (statusHandler 200)
              {| Method := "OPTIONS"; URL_Path := "/users" |} newRecorder
              "http://a.example.org") as (E & _);
    [vm_compute; discriminate|vm_compute; reflexivity|reflexivity|].
  intros w'. unfold w'. rewrite E. vm_compute. by repeat split.
Defined.

Lemma CORS_actual_request_reaches_handler_witness :
  let w' :=
    middleware.CORS (fromOrigin "https://example.com") exampleCORS
      (statusHandler 200) Recorder _
      {| Method := "GET"; URL_Path := "/users" |} newRecorder in
  rec_calls w' = [CallWriteHeader 200]
  /\ Header_Get (rec_header w') "Access-Control-Allow-Origin"
     = "https://example.com"
  /\ Header_Get (rec_header w') "Access-Control-Expose-Headers" = "X-Total".
Proof.
  destruct (CORS_actual_request_reaches_handler
              (fromOrigin "https://example.com") exampleCORS
              (statusHandler 200)
              {| Method := "GET"; URL_Path := "/users" |} newRecorder
              "https://example.com") as (E & _);
    [vm_compute; discriminate|vm_compute; reflexivity|discriminate|].
  intros w'. unfold w'. rewrite E. vm_compute. by repeat split.
Defined.

(** ** Serving files *)


